(** * The battle manager of Python-Game: a shallow embedding

    The development follows [src/game/managers/battle_manager.py] (the
    [BattleManager] class with its two enums) and the [Hero] methods of
    [hero.py] that the manager calls.  Python integers are [Z], the potion
    bag is a [gmap string Z], the battle log a [list string].  Objects the
    manager shares with the game (hero, monster, button manager, log) are
    fields of one record that every method takes and gives back. *)

From Stdlib Require Import ZArith.
From stdpp Require Import base decidable option list strings pretty gmap fin_maps.

Local Open Scope string_scope.
Local Open Scope list_scope.
Local Open Scope Z_scope.

(** ** Enums (battle_manager.py, lines 13-22) *)

Inductive TurnState := HERO_TURN | MONSTER_TURN.

Inductive BattleState := HOME | USE_ITEM | USE_ABILITY | RUN_AWAY | MONSTER_DEFEATED.

#[global] Instance TurnState_eq_dec : EqDecision TurnState.
Proof. solve_decision. Defined.

#[global] Instance BattleState_eq_dec : EqDecision BattleState.
Proof. solve_decision. Defined.

(** Exceptions the modelled code can raise. *)
Inductive Exn := AttributeError | KeyError.

(** ** Entities *)

Module Ability.

(** The attributes of an ability that battle_manager.py reads:
    [name], [energy_cost], [current_cooldown]. *)
Record t := mk {
  name : string;
  energy_cost : Z;
  current_cooldown : Z
}.

Definition set_current_cooldown (c : Z) (a : t) : t :=
    mk (name a) (energy_cost a) c.

(** Modelled from the spec: [Ability.can_use] lives in the ability module,
    which is not part of the sources; the spec gives the usability
    predicate as [cooldown == 0]. *)
Definition can_use (a : t) : bool := bool_decide (current_cooldown a = 0).

(** Modelled from the spec: one end-of-turn tick of the cooldown counter,
    which ticks down with floor zero. *)
Definition tick (a : t) : t :=
    set_current_cooldown (Z.max 0 (current_cooldown a - 1)) a.

End Ability.

Module Effect.

(** The outcome of [Ability.use].  [missed] and [critical] are read through
    [hasattr], so each may be absent ([None]). *)
Record t := mk {
  damage : Z;
  healing : Z;
  block : Z;
  missed : option bool;
  critical : option bool
}.

(** [hasattr(effect, 'missed') and effect.missed] *)
Definition flag (o : option bool) : bool := default false o.

End Effect.

Module Monster.

Record t := mk {
  name : string;
  current_hp : Z;
  damage : Z;
  experience : Z;
  gold : Z
}.

(** Modelled from the spec: [Combatant.is_alive] (combatant module, not
    part of the sources): alive iff current health is above zero. *)
Definition is_alive (m : t) : bool := bool_decide (0 < current_hp m).

End Monster.

Module Hero.

(** hero.py, [Hero.__init__], together with [energy] and [abilities],
    which battle_manager.py reads on the hero. *)
Record t := mk {
  name : string;
  max_hp : Z;
  current_hp : Z;
  level : Z;
  experience : Z;
  gold : Z;
  potion_bag : gmap string Z;
  potion_damage : Z;
  potion_block : Z;
  energy : Z;
  abilities : list Ability.t
}.

Definition set_hp (hp mx : Z) (h : t) : t :=
    mk (name h) mx hp (level h) (experience h) (gold h) (potion_bag h)
       (potion_damage h) (potion_block h) (energy h) (abilities h).

Definition set_level (l : Z) (h : t) : t :=
    mk (name h) (max_hp h) (current_hp h) l (experience h) (gold h) (potion_bag h)
       (potion_damage h) (potion_block h) (energy h) (abilities h).

Definition set_experience (e : Z) (h : t) : t :=
    mk (name h) (max_hp h) (current_hp h) (level h) e (gold h) (potion_bag h)
       (potion_damage h) (potion_block h) (energy h) (abilities h).

Definition set_gold (g : Z) (h : t) : t :=
    mk (name h) (max_hp h) (current_hp h) (level h) (experience h) g (potion_bag h)
       (potion_damage h) (potion_block h) (energy h) (abilities h).

Definition set_potion_bag (b : gmap string Z) (h : t) : t :=
    mk (name h) (max_hp h) (current_hp h) (level h) (experience h) (gold h) b
       (potion_damage h) (potion_block h) (energy h) (abilities h).

Definition set_potion_damage (d : Z) (h : t) : t :=
    mk (name h) (max_hp h) (current_hp h) (level h) (experience h) (gold h) (potion_bag h)
       d (potion_block h) (energy h) (abilities h).

Definition set_potion_block (b : Z) (h : t) : t :=
    mk (name h) (max_hp h) (current_hp h) (level h) (experience h) (gold h) (potion_bag h)
       (potion_damage h) b (energy h) (abilities h).

Definition set_energy (e : Z) (h : t) : t :=
    mk (name h) (max_hp h) (current_hp h) (level h) (experience h) (gold h) (potion_bag h)
       (potion_damage h) (potion_block h) e (abilities h).

Definition set_abilities (l : list Ability.t) (h : t) : t :=
    mk (name h) (max_hp h) (current_hp h) (level h) (experience h) (gold h) (potion_bag h)
       (potion_damage h) (potion_block h) (energy h) l.

(** Modelled from the spec: [Combatant.is_alive]: alive iff current health
    is above zero. *)
Definition is_alive (h : t) : bool := bool_decide (0 < current_hp h).

(** hero.py, lines 48-49. *)
Definition has_potions (h : t) : bool :=
    bool_decide (map_Exists (fun _ amount => 0 < amount) (potion_bag h)).

(** hero.py, lines 59-75.  The [print] calls write to the console only and
    are left out; the [else] branch therefore changes nothing. *)
Definition use_potion (potion_name : string) (h : t) : t :=
    match potion_bag h !! potion_name with
    | Some n =>
        if bool_decide (0 < n) then
          let h1 :=
            if bool_decide (potion_name = "Health Potion") then
              let hp := current_hp h + 5 in
              set_hp (if bool_decide (max_hp h < hp) then max_hp h else hp) (max_hp h) h
            else if bool_decide (potion_name = "Damage Potion") then
              set_potion_damage 3 h
            else if bool_decide (potion_name = "Block Potion") then
              set_potion_block 2 h
            else h in
          set_potion_bag (<[potion_name := n - 1]> (potion_bag h1)) h1
        else h
    | None => h
    end.

(** hero.py, lines 77-80. *)
Definition add_gold (amount : Z) (h : t) : t := set_gold (gold h + amount) h.

(** hero.py, lines 99-105. *)
Definition level_up (h : t) : t :=
    let hp := current_hp h + 5 in
    let h1 := set_hp hp (if bool_decide (max_hp h < hp) then hp else max_hp h) h in
    set_level (level h1 + 1) h1.

(** hero.py, lines 92-97. *)
Definition gain_experience (e : Z) (h : t) : t :=
    let h1 := set_experience (experience h + e) h in
    if bool_decide (10 * level h1 <= experience h1) then level_up (set_experience 0 h1)
    else h1.

(** Modelled from the spec: [Hero.update_abilities], the end-of-turn tick:
    every ability's cooldown goes down by one, never below zero. *)
Definition update_abilities (h : t) : t :=
    set_abilities (Ability.tick <$> abilities h) h.

(** hero.py, lines 51-57; the [print] is left out. *)
Definition add_potion (potion_name : string) (amount : Z) (h : t) : t :=
  match potion_bag h !! potion_name with
  | Some n => set_potion_bag (<[potion_name := n + amount]> (potion_bag h)) h
  | None => set_potion_bag (<[potion_name := amount]> (potion_bag h)) h
  end.

(** hero.py, lines 82-90; the [print]s are left out. *)
Definition spend_gold (amount : Z) (h : t) : bool * t :=
  if bool_decide (amount <= gold h) then (true, set_gold (gold h - amount) h)
  else (false, h).

End Hero.

(** ** The console game (HeroVsGoblin.py)

    The loop of HeroVsGoblin.py runs on modules that are not part of the
    sources; what it decides by itself, from the hero's kill count, is
    whether the hero levels up and which monster comes next (lines 38-45). *)

Module HeroVsGoblin.

Inductive Opponent := Goblin | Orc | Ogre.

(** Line 38: [myHero.monstersSlain % 5 == 0] *)
Definition levels_up (monstersSlain : Z) : bool := bool_decide (monstersSlain `mod` 5 = 0).

(** Lines 40-45 *)
Definition next_monster (monstersSlain : Z) : Opponent :=
  if bool_decide (10 < monstersSlain) && bool_decide (monstersSlain < 20) then Orc
  else if bool_decide (20 < monstersSlain) then Ogre
  else Goblin.

End HeroVsGoblin.

(** ** The button adapter *)

Module Button.

Record t := mk {
  text : string;
  locked : bool;
  visible : bool
}.

Definition lock (b : t) : t := mk (text b) true (visible b).
Definition unlock (b : t) : t := mk (text b) false (visible b).
Definition show (b : t) : t := mk (text b) (locked b) true.
Definition hide (b : t) : t := mk (text b) (locked b) false.

End Button.

Module ButtonManager.

(** Modelled from the spec: the button manager module is not part of the
    sources.  The spec gives the adapter as [get_button(screen, name)]
    returning a button with [lock]/[unlock]/[show]/[hide]; battle_manager.py
    also calls [clear_hero_ability_buttons] and [add_hero_ability_button] and
    reads [hero_ability_buttons.buttons] and each button's [text].  Only the
    battle screen is ever asked for, so buttons are keyed by name. *)
Record t := mk {
  buttons : gmap string Button.t;
  hero_ability_buttons : list Button.t
}.

(** [button_manager.get_button(GameState.BATTLE, name).f()]: the operation
    [f] on the button registered under [name]. *)
Definition on_button (name : string) (f : Button.t -> Button.t) (m : t) : t :=
  mk (alter f name (buttons m)) (hero_ability_buttons m).

(** [for name in names: button_manager.get_button(GameState.BATTLE, name).f()] *)
Definition for_buttons (names : list string) (f : Button.t -> Button.t) (m : t) : t :=
  foldl (fun m name => on_button name f m) m names.

Definition clear_hero_ability_buttons (m : t) : t := mk (buttons m) [].

Definition add_hero_ability_button (a : Ability.t) (m : t) : t :=
  mk (buttons m) (hero_ability_buttons m ++ [Button.mk (Ability.name a) false true]).

Definition set_hero_ability_buttons (l : list Button.t) (m : t) : t :=
  mk (buttons m) l.

End ButtonManager.

(** ** Collaborators whose code is not part of the sources

    [Hero.take_damage] (hero.py, lines 33-35) passes the incoming damage
    through the armour ([items] module) and hands the result to
    [Combatant.take_damage] ([combatant] module); [Hero.rest] and
    [Ability.use] belong to the entity modules.  None of them is in the
    sources and the spec leaves their rules to the combatant model, so they
    are taken as an interface.  [Rng] is the state of Python's [random]
    module, which the armour and the abilities may draw from. *)

Module UseResult.

(** What one call of [Ability.use(hero, monster)] leaves behind: the effect
    it returns, the ability object after the call, and the hero and the
    monster it was given, as it left them. *)
Record t (Rng : Type) := mk {
  effect : Effect.t;
  ability : Ability.t;
  hero : Hero.t;
  monster : Monster.t;
  rng : Rng
}.

Arguments mk {Rng}.
Arguments effect {Rng}.
Arguments ability {Rng}.
Arguments hero {Rng}.
Arguments monster {Rng}.
Arguments rng {Rng}.

End UseResult.

Class Entities := {
  Rng : Type;
(** [self.armor.calculate_defence(incoming_damage)], for the armour the
    hero wears *)
  armor_calculate_defence : Hero.t -> Z -> Rng -> Z * Rng;
(** [Combatant.take_damage(self, incoming_damage)] *)
  Combatant_take_damage : Z -> Hero.t -> Hero.t;
(** [Hero.rest(self)] *)
  Hero_rest : Hero.t -> Hero.t;
(** [ability.use(hero, monster)] *)
  Ability_use : Ability.t -> Hero.t -> Monster.t -> Rng -> UseResult.t Rng
}.

Section BattleManager.

Context `{E : Entities}.

(** hero.py, lines 33-35. *)
Definition Hero_take_damage (incoming_damage : Z) (h : Hero.t) (g : Rng) : Hero.t * Rng :=
  let '(incoming_damage, g) := armor_calculate_defence h incoming_damage g in
  (Combatant_take_damage incoming_damage h, g).

(** The manager's attributes (battle_manager.py, lines 25-39) with the
    objects they refer to.  [button_manager] is [None] until
    [update_button_states] stores the game's button manager; from then on it
    holds that object, which the manager and its caller both see.  The
    tooltip is display only and left out. *)
Record BattleManager := mkBattleManager {
  hero : Hero.t;
  battle_log : list string;
  monster : option Monster.t;
  state : BattleState;
  turn : TurnState;
  showing_potions : bool;
  button_manager : option ButtonManager.t;
  rng : Rng
}.

Definition set_hero (h : Hero.t) (w : BattleManager) : BattleManager :=
  mkBattleManager h (battle_log w) (monster w) (state w) (turn w)
    (showing_potions w) (button_manager w) (rng w).

Definition set_monster (m : option Monster.t) (w : BattleManager) : BattleManager :=
  mkBattleManager (hero w) (battle_log w) m (state w) (turn w)
    (showing_potions w) (button_manager w) (rng w).

Definition set_state (s : BattleState) (w : BattleManager) : BattleManager :=
  mkBattleManager (hero w) (battle_log w) (monster w) s (turn w)
    (showing_potions w) (button_manager w) (rng w).

Definition set_turn (t : TurnState) (w : BattleManager) : BattleManager :=
  mkBattleManager (hero w) (battle_log w) (monster w) (state w) t
    (showing_potions w) (button_manager w) (rng w).

Definition set_showing_potions (b : bool) (w : BattleManager) : BattleManager :=
  mkBattleManager (hero w) (battle_log w) (monster w) (state w) (turn w)
    b (button_manager w) (rng w).

Definition set_button_manager (m : option ButtonManager.t) (w : BattleManager) : BattleManager :=
  mkBattleManager (hero w) (battle_log w) (monster w) (state w) (turn w)
    (showing_potions w) m (rng w).

Definition set_rng (g : Rng) (w : BattleManager) : BattleManager :=
  mkBattleManager (hero w) (battle_log w) (monster w) (state w) (turn w)
    (showing_potions w) (button_manager w) g.

(** [self.battle_log.append(msg)] *)
Definition log (msg : string) (w : BattleManager) : BattleManager :=
  mkBattleManager (hero w) (battle_log w ++ [msg]) (monster w) (state w) (turn w)
    (showing_potions w) (button_manager w) (rng w).

(** An operation on the button manager the manager refers to.  Every private
    helper below receives [self.button_manager] (or the object just stored in
    it) as its [button_manager] argument. *)
Definition ui (f : ButtonManager.t -> ButtonManager.t) (w : BattleManager) : BattleManager :=
  set_button_manager (f <$> button_manager w) w.

(** [self.monster and self.monster.is_alive()] *)
Definition monster_alive (w : BattleManager) : bool :=
  match monster w with
  | Some m => Monster.is_alive m
  | None => false
  end.

(** A method that may raise returns the manager as the exception left it. *)
Inductive Outcome (A : Type) :=
  | Return (a : A) (w : BattleManager)
  | Raise (e : Exn) (w : BattleManager).

Arguments Return {A}.
Arguments Raise {A}.

(** [BattleManager.__init__] (lines 25-39) *)
Definition init (h : Hero.t) (battle_log : list string) (g : Rng) : BattleManager :=
  mkBattleManager h battle_log None HOME HERO_TURN false None g.

(** [start_battle] (lines 41-50) *)
Definition start_battle (m : Monster.t) (w : BattleManager) : BattleManager :=
  let w := set_monster (Some m) w in
  let w := set_state HOME w in
  let w := set_turn HERO_TURN w in
  log ("A " +:+ Monster.name m +:+ " appears!") w.

(** [handle_monster_defeat] (lines 69-77) *)
Definition handle_monster_defeat (w : BattleManager) : BattleManager :=
  match monster w with
  | None => w
  | Some m =>
      let w := log (Monster.name m +:+ " has been defeated!") w in
      let w := log (Hero.name (hero w) +:+ " gains " +:+ pretty (Monster.experience m)
                      +:+ " experience and " +:+ pretty (Monster.gold m) +:+ " gold.") w in
      let w := set_hero (Hero.gain_experience (Monster.experience m) (hero w)) w in
      let w := set_hero (Hero.add_gold (Monster.gold m) (hero w)) w in
      set_state MONSTER_DEFEATED w
  end.

(** [update_battle_state] (lines 52-67).  The test on line 62 evaluates
    [self.monster.is_alive()] only when the hero is alive; with no monster
    that attribute access raises. *)
Definition update_battle_state (w : BattleManager) : Outcome (option bool) :=
  if bool_decide (state w <> MONSTER_DEFEATED) then
    if Hero.is_alive (hero w) then
      match monster w with
      | None => Raise AttributeError w
      | Some m =>
          if negb (Monster.is_alive m) then
            Return (Some true) (handle_monster_defeat w)
          else if negb (Hero.is_alive (hero w)) then Return (Some false) w
          else Return None w
      end
    else if negb (Hero.is_alive (hero w)) then Return (Some false) w
    else Return None w
  else Return None w.

(** [_toggle_potion_buttons] (lines 162-175) *)
Definition _toggle_potion_buttons (show : bool) (w : BattleManager) : BattleManager :=
  let w := set_showing_potions show w in
  ui (ButtonManager.for_buttons ["Health Potion"; "Damage Potion"; "Block Potion"]
        (if show then Button.show else Button.hide)) w.

(** The inner loop of [_update_ability_button_states] (lines 388-395): the
    first ability with the button's text decides; without one the button is
    left as it is. *)
Fixpoint update_ability_button (h : Hero.t) (abilities : list Ability.t) (button : Button.t)
  : Button.t :=
  match abilities with
  | [] => button
  | ability :: rest =>
      if bool_decide (Button.text button = Ability.name ability) then
        if bool_decide (0 < Ability.current_cooldown ability)
           || bool_decide (Hero.energy h < Ability.energy_cost ability)
        then Button.lock button
        else Button.unlock button
      else update_ability_button h rest button
  end.

(** [_update_ability_button_states] (lines 380-395) *)
Definition _update_ability_button_states (w : BattleManager) : BattleManager :=
  ui (fun m => ButtonManager.set_hero_ability_buttons
                 (update_ability_button (hero w) (Hero.abilities (hero w))
                    <$> ButtonManager.hero_ability_buttons m) m) w.

(** [_toggle_ability_buttons] (lines 362-378) *)
Definition _toggle_ability_buttons (show : bool) (w : BattleManager) : BattleManager :=
  let w := ui ButtonManager.clear_hero_ability_buttons w in
  if show then
    let w := ui (fun m => foldl (fun m ability => ButtonManager.add_hero_ability_button ability m)
                            m (Hero.abilities (hero w))) w in
    _update_ability_button_states w
  else w.

(** [handle_monster_attack] (lines 190-211).  The block the log reports is
    read after [take_damage] has run. *)
Definition handle_monster_attack (w : BattleManager) : BattleManager :=
  if bool_decide (turn w <> MONSTER_TURN) then w
  else
    match monster w with
    | Some m =>
        if Monster.is_alive m then
          let damage := Z.max 0 (Monster.damage m - Hero.potion_block (hero w)) in
          let '(h, g) := Hero_take_damage damage (hero w) (rng w) in
          let w := set_rng g (set_hero h w) in
          let attack_msg := Monster.name m +:+ " attacks " +:+ Hero.name (hero w)
                              +:+ " for " +:+ pretty damage +:+ " damage." in
          let w :=
            if bool_decide (0 < Hero.potion_block (hero w)) then
              let w := log (Hero.name (hero w) +:+ " blocks "
                              +:+ pretty (Hero.potion_block (hero w)) +:+ " damage!") w in
              log attack_msg w
            else log attack_msg w in
          let w := set_hero (Hero.set_potion_block 0 (hero w)) w in
          set_turn HERO_TURN w
        else w
    | None => w
    end.

(** [start_monster_turn] (lines 213-216) *)
Definition start_monster_turn (w : BattleManager) : BattleManager :=
  if monster_alive w then handle_monster_attack w else w.

(** [update_button_states] (lines 79-145) *)
Definition update_button_states (button_manager : ButtonManager.t) (w : BattleManager)
  : BattleManager :=
  let w := set_button_manager (Some button_manager) w in
  if bool_decide (state w = MONSTER_DEFEATED) then
    let w := ui (ButtonManager.for_buttons ["Ability"; "Rest"; "Potion"; "Flee"] Button.lock) w in
    let w := ui (ButtonManager.for_buttons ["Continue"; "Retreat"] Button.unlock) w in
    let w := _toggle_potion_buttons false w in
    _toggle_ability_buttons false w
  else
    let w := ui (ButtonManager.for_buttons ["Continue"; "Retreat"]
                   (fun b => Button.hide (Button.lock b))) w in
    if bool_decide (turn w = MONSTER_TURN) then
      let w := ui (ButtonManager.for_buttons ["Ability"; "Rest"; "Potion"; "Flee"] Button.lock) w in
      let w := _toggle_potion_buttons false w in
      let w := _toggle_ability_buttons false w in
      start_monster_turn w
    else
      if bool_decide (state w = HOME) then
        let w := ui (ButtonManager.for_buttons ["Ability"; "Rest"; "Flee"] Button.unlock) w in
        let w :=
          if Hero.has_potions (hero w) then ui (ButtonManager.on_button "Potion" Button.unlock) w
          else ui (ButtonManager.on_button "Potion" Button.lock) w in
        let w := _toggle_potion_buttons false w in
        _toggle_ability_buttons false w
      else if bool_decide (state w = USE_ABILITY) then
        let w := ui (ButtonManager.for_buttons ["Rest"; "Potion"; "Flee"] Button.lock) w in
        let w := _toggle_potion_buttons false w in
        _toggle_ability_buttons true w
      else if bool_decide (state w = USE_ITEM) then
        let w := ui (ButtonManager.for_buttons ["Ability"; "Rest"; "Flee"] Button.lock) w in
        let w := _toggle_potion_buttons true w in
        _toggle_ability_buttons false w
      else w.

(** The outcome of the search loop of [use_ability] (lines 316-330). *)
Inductive Lookup :=
  | OnCooldown
  | NotEnoughEnergy
  | Target (ability : Ability.t)
  | Unknown.

(** Lines 317-326: the first ability named [ability_name] ends the loop. *)
Fixpoint find_ability (h : Hero.t) (ability_name : string) (abilities : list Ability.t)
  : Lookup :=
  match abilities with
  | [] => Unknown
  | ability :: rest =>
      if bool_decide (Ability.name ability = ability_name) then
        if negb (Ability.can_use ability) then OnCooldown
        else if bool_decide (Hero.energy h < Ability.energy_cost ability) then NotEnoughEnergy
        else Target ability
      else find_ability h ability_name rest
  end.

Definition cooldown_message (ability_name : string) : string :=
  ability_name +:+ " is still on cooldown!".

Definition energy_message (ability_name : string) : string :=
  "Not enough energy to use " +:+ ability_name +:+ "!".

(** Lines 337-346: the log line chosen by the shape of the effect. *)
Definition log_effect (hero_name ability_name : string) (effect : Effect.t)
    (w : BattleManager) : BattleManager :=
  if Effect.flag (Effect.missed effect) then
    log (hero_name +:+ "'s " +:+ ability_name +:+ " missed!") w
  else if Effect.flag (Effect.critical effect) then
    log (hero_name +:+ "'s " +:+ ability_name +:+ " landed a critical hit for "
           +:+ pretty (Effect.damage effect) +:+ " damage!") w
  else if bool_decide (0 < Effect.damage effect) then
    log (hero_name +:+ " used " +:+ ability_name +:+ " dealing "
           +:+ pretty (Effect.damage effect) +:+ " damage!") w
  else if bool_decide (0 < Effect.healing effect) then
    log (hero_name +:+ " used " +:+ ability_name +:+ " restoring "
           +:+ pretty (Effect.healing effect) +:+ " health!") w
  else if bool_decide (0 < Effect.block effect) then
    log (hero_name +:+ " used " +:+ ability_name +:+ " gaining "
           +:+ pretty (Effect.block effect) +:+ " block!") w
  else w.

(** [use_ability] (lines 306-360) *)
Definition use_ability (ability_name : string) (w : BattleManager) : BattleManager :=
  if bool_decide (turn w <> HERO_TURN) || bool_decide (state w <> USE_ABILITY)
     || negb (bool_decide (is_Some (button_manager w)))
  then w
  else
    match monster w with
    | Some m =>
        if Monster.is_alive m then
          match find_ability (hero w) ability_name (Hero.abilities (hero w)) with
          | OnCooldown => log (cooldown_message ability_name) w
          | NotEnoughEnergy => log (energy_message ability_name) w
          | Unknown => log (Hero.name (hero w) +:+ " doesn't know " +:+ ability_name +:+ "!") w
          | Target target_ability =>
              let r := Ability_use target_ability (hero w) m (rng w) in
              let w := set_rng (UseResult.rng r)
                         (set_monster (Some (UseResult.monster r))
                            (set_hero (UseResult.hero r) w)) in
              let w := set_hero (Hero.set_energy
                                   (Hero.energy (hero w)
                                    - Ability.energy_cost (UseResult.ability r)) (hero w)) w in
              let w := log_effect (Hero.name (hero w)) ability_name (UseResult.effect r) w in
              let w := _toggle_ability_buttons false w in
              let w := set_hero (Hero.update_abilities (hero w)) w in
              let w := set_state HOME w in
              let w := set_turn MONSTER_TURN w in
              if monster_alive w then start_monster_turn w else w
          end
        else w
    | None => w
    end.

(** [handle_ability] (lines 218-241).  [if ability_name:] holds for a name
    that is given and not empty. *)
Definition handle_ability (ability_name : option string) (w : BattleManager) : BattleManager :=
  if bool_decide (turn w <> HERO_TURN) || negb (bool_decide (is_Some (button_manager w)))
  then w
  else
    match ability_name with
    | Some (String c s) => use_ability (String c s) w
    | _ =>
        if bool_decide (state w = USE_ABILITY) then
          let w := set_state HOME w in
          _toggle_ability_buttons false w
        else
          let w := set_state USE_ABILITY w in
          let w := _toggle_ability_buttons true w in
          _update_ability_button_states w
    end.

(** [handle_rest] (lines 243-256); the [print] goes to the console. *)
Definition handle_rest (w : BattleManager) : BattleManager :=
  if bool_decide (turn w <> HERO_TURN) then w
  else
    let w := set_hero (Hero_rest (hero w)) w in
    let w := log (Hero.name (hero w) +:+ " rests to restore energy.") w in
    let w := set_state HOME w in
    let w := set_turn MONSTER_TURN w in
    if monster_alive w then start_monster_turn w else w.

(** [_update_potion_button_states] (lines 177-188): [potion_bag[potion_name]]
    raises [KeyError] for a name the bag does not hold, after the buttons
    before it have been set. *)
Fixpoint update_potion_buttons (names : list string) (w : BattleManager) : Outcome unit :=
  match names with
  | [] => Return tt w
  | potion_name :: rest =>
      match Hero.potion_bag (hero w) !! potion_name with
      | None => Raise KeyError w
      | Some n =>
          let w :=
            if bool_decide (0 < n) then ui (ButtonManager.on_button potion_name Button.unlock) w
            else ui (ButtonManager.on_button potion_name Button.lock) w in
          update_potion_buttons rest w
      end
  end.

Definition _update_potion_button_states (w : BattleManager) : Outcome unit :=
  update_potion_buttons ["Health Potion"; "Damage Potion"; "Block Potion"] w.

(** [handle_use_potion] (lines 258-272) *)
Definition handle_use_potion (w : BattleManager) : Outcome unit :=
  if bool_decide (turn w <> HERO_TURN) || negb (bool_decide (is_Some (button_manager w)))
  then Return tt w
  else
    if bool_decide (state w = USE_ITEM) then
      let w := set_state HOME w in
      Return tt (_toggle_potion_buttons false w)
    else
      let w := set_state USE_ITEM w in
      let w := _toggle_potion_buttons true w in
      _update_potion_button_states w.

(** [use_potion] (lines 274-293) *)
Definition use_potion (potion_name : string) (w : BattleManager) : BattleManager :=
  if bool_decide (turn w <> HERO_TURN) || bool_decide (state w <> USE_ITEM)
     || negb (bool_decide (is_Some (button_manager w)))
  then w
  else
    let w := set_hero (Hero.use_potion potion_name (hero w)) w in
    let w := log (Hero.name (hero w) +:+ " used a " +:+ potion_name +:+ "!") w in
    let w := _toggle_potion_buttons false w in
    let w := set_state HOME w in
    let w := set_turn MONSTER_TURN w in
    if monster_alive w then start_monster_turn w else w.

(** [handle_flee] (lines 295-304) *)
Definition handle_flee (w : BattleManager) : bool * BattleManager :=
  if bool_decide (turn w <> HERO_TURN) then (false, w)
  else (true, set_state RUN_AWAY w).

End BattleManager.

Arguments Return {E A}.
Arguments Raise {E A}.

(** ** A small game to run the manager on

    Plain collaborators: armour that lets every hit through, damage taken
    off the current health, rest worth five energy, and abilities that hit
    for three and go on a two-turn cooldown. *)

Definition plain_take_damage (d : Z) (h : Hero.t) : Hero.t :=
  Hero.set_hp (Hero.current_hp h - d) (Hero.max_hp h) h.

Definition plain_use (a : Ability.t) (h : Hero.t) (m : Monster.t) (g : unit)
  : UseResult.t unit :=
  let a' := Ability.set_current_cooldown 2 a in
  UseResult.mk
    (Effect.mk 3 0 0 (Some false) (Some false))
    a'
    (Hero.set_abilities
       ((fun b => if bool_decide (Ability.name b = Ability.name a) then a' else b)
          <$> Hero.abilities h) h)
    (Monster.mk (Monster.name m) (Monster.current_hp m - 3) (Monster.damage m)
       (Monster.experience m) (Monster.gold m))
    g.

Definition plain : Entities := {|
  Rng := unit;
  armor_calculate_defence := fun _ d g => (d, g);
  Combatant_take_damage := plain_take_damage;
  Hero_rest := fun h => Hero.set_energy (Hero.energy h + 5) h;
  Ability_use := plain_use
|}.

Definition fireball : Ability.t := Ability.mk "Fireball" 4 2.
Definition slash : Ability.t := Ability.mk "Slash" 1 0.

(** The hero of hero.py's [__init__] defaults, with twenty health, three
    energy and two abilities. *)
Definition knight : Hero.t :=
  Hero.mk "Hero" 20 20 1 0 50
    (<["Health Potion" := 2]> (<["Damage Potion" := 1]> (<["Block Potion" := 1]> ∅)))
    0 0 3 [fireball; slash].

Definition goblin : Monster.t := Monster.mk "Goblin" 8 5 4 7.
Definition slain_goblin : Monster.t := Monster.mk "Goblin" 0 5 4 7.

Definition battle_buttons : ButtonManager.t :=
  ButtonManager.mk
    (list_to_map
       ((fun name => (name, Button.mk name false true))
          <$> ["Ability"; "Rest"; "Potion"; "Flee"; "Continue"; "Retreat";
               "Health Potion"; "Damage Potion"; "Block Potion"]))
    [].

(** A fresh manager, as the game builds it. *)
Definition fresh : BattleManager (E := plain) := init (E := plain) knight [] tt.

(** The battle screen at the start of a fight with the goblin: buttons laid
    out once, then the monster arrives. *)
Definition ready : BattleManager (E := plain) :=
  start_battle goblin (update_button_states battle_buttons fresh).

(** The same fight with the ability submenu open. *)
Definition ability_menu : BattleManager (E := plain) := handle_ability None ready.

(** A monster's turn that nobody has resolved yet. *)
Definition pending : BattleManager (E := plain) := set_turn MONSTER_TURN ready.

(** A hero who has drunk every health potion, with the potion submenu
    open in front of the goblin. *)
Definition out_of_health_potions : Hero.t :=
  Hero.set_potion_bag (<["Health Potion" := 0]> (Hero.potion_bag knight)) knight.

Definition potion_menu : BattleManager (E := plain) :=
  match
    handle_use_potion
      (start_battle goblin
         (update_button_states battle_buttons (init (E := plain) out_of_health_potions [] tt)))
  with
  | Return _ w => w
  | Raise _ w => w
  end.

(** A fight that starts with a goblin already at zero health, after the
    first poll. *)
Definition won : BattleManager (E := plain) :=
  match update_battle_state (start_battle slain_goblin (update_button_states battle_buttons fresh)) with
  | Return _ w => w
  | Raise _ w => w
  end.

(** A goblin one slash away from death, with the ability submenu open. *)
Definition last_blow : BattleManager (E := plain) :=
  handle_ability None
    (start_battle (Monster.mk "Goblin" 3 5 4 7) (update_button_states battle_buttons fresh)).

(** A hero too tired for any ability, in front of the goblin with the
    ability submenu open. *)
Definition tired_menu : BattleManager (E := plain) :=
  handle_ability None
    (start_battle goblin
       (update_button_states battle_buttons (init (E := plain) (Hero.set_energy 0 knight) [] tt))).


(** ** States the manager can be in

    A state is reachable when the game can bring a manager built by
    [__init__] into it: by calling its methods, in any order and with any
    arguments, and by changing the objects it shares with the manager (the
    hero, the monster object, the log, the buttons, the random state)
    between calls. *)
Inductive reachable `{E : Entities} : BattleManager -> Prop :=
  | reach_init h lg g : reachable (init h lg g)
  | reach_start_battle m w : reachable w -> reachable (start_battle m w)
  | reach_update_battle_state w r w' :
      reachable w -> update_battle_state w = Return r w' -> reachable w'
  | reach_update_battle_state_raise w e w' :
      reachable w -> update_battle_state w = Raise e w' -> reachable w'
  | reach_handle_monster_defeat w : reachable w -> reachable (handle_monster_defeat w)
  | reach_update_button_states b w : reachable w -> reachable (update_button_states b w)
  | reach_handle_monster_attack w : reachable w -> reachable (handle_monster_attack w)
  | reach_start_monster_turn w : reachable w -> reachable (start_monster_turn w)
  | reach_handle_ability o w : reachable w -> reachable (handle_ability o w)
  | reach_handle_rest w : reachable w -> reachable (handle_rest w)
  | reach_handle_use_potion w r w' :
      reachable w -> handle_use_potion w = Return r w' -> reachable w'
  | reach_handle_use_potion_raise w e w' :
      reachable w -> handle_use_potion w = Raise e w' -> reachable w'
  | reach_use_potion n w : reachable w -> reachable (use_potion n w)
  | reach_handle_flee w : reachable w -> reachable (handle_flee w).2
  | reach_use_ability n w : reachable w -> reachable (use_ability n w)
  | reach_hero h w : reachable w -> reachable (set_hero h w)
  | reach_monster f w : reachable w -> reachable (set_monster (f <$> monster w) w)
  | reach_log msg w : reachable w -> reachable (log msg w)
  | reach_buttons f w : reachable w -> reachable (ui f w)
  | reach_rng g w : reachable w -> reachable (set_rng g w).

(** Whenever a submenu is open, a button manager has been stored. *)
Definition submenu_registered `{E : Entities} (w : BattleManager) : Prop :=
  state w = USE_ITEM \/ state w = USE_ABILITY -> is_Some (button_manager w).


(** The states in which [update_button_states] finds a monster's turn to
    resolve (lines 106-114). *)
Definition monster_turn_pending `{E : Entities} (w : BattleManager) : bool :=
  bool_decide (state w <> MONSTER_DEFEATED) && bool_decide (turn w = MONSTER_TURN)
  && monster_alive w.

(** [w'] has the log of [w], possibly with lines added at its end. *)
Definition log_grows `{E : Entities} (w w' : BattleManager) : Prop :=
  exists l, battle_log w' = battle_log w ++ l.

(** Whether the button of an ability gets locked: the test of line 391. *)
Definition ability_locked (h : Hero.t) (a : Ability.t) : bool :=
  bool_decide (0 < Ability.current_cooldown a)
  || bool_decide (Hero.energy h < Ability.energy_cost a).

(** * Properties *)

Section Properties.

Context `{E : Entities}.

Implicit Types (w : BattleManager) (h : Hero.t) (m : Monster.t) (a : Ability.t).

(** ** Frame lemmas for the helpers *)

Lemma log_fields msg w :
  hero (log msg w) = hero w /\ monster (log msg w) = monster w
  /\ state (log msg w) = state w /\ turn (log msg w) = turn w
  /\ button_manager (log msg w) = button_manager w
  /\ battle_log (log msg w) = battle_log w ++ [msg].
Proof. by destruct w. Qed.

Lemma monster_alive_Some w m :
  monster w = Some m -> monster_alive w = Monster.is_alive m.
Proof. unfold monster_alive. by intros ->. Qed.

Lemma monster_alive_true w :
  monster_alive w = true -> exists m, monster w = Some m /\ Monster.is_alive m = true.
Proof. unfold monster_alive. destruct (monster w) as [m|]; [eauto | done]. Qed.

(** The monster's attack, spelled out: what [handle_monster_attack] leaves
    when it is the monster's turn and the monster is alive. *)
Lemma handle_monster_attack_alive w m :
  turn w = MONSTER_TURN -> monster w = Some m -> Monster.is_alive m = true ->
  let damage := Z.max 0 (Monster.damage m - Hero.potion_block (hero w)) in
  let hg := Hero_take_damage damage (hero w) (rng w) in
  hero (handle_monster_attack w) = Hero.set_potion_block 0 hg.1
  /\ rng (handle_monster_attack w) = hg.2
  /\ turn (handle_monster_attack w) = HERO_TURN
  /\ state (handle_monster_attack w) = state w
  /\ monster (handle_monster_attack w) = monster w
  /\ button_manager (handle_monster_attack w) = button_manager w
  /\ exists l, l <> [] /\ battle_log (handle_monster_attack w) = battle_log w ++ l.
Proof.
  intros Ht Hm Ha. unfold handle_monster_attack.
  rewrite Ht, Hm, Ha. simpl.
  destruct (Hero_take_damage _ _ _) as [h g]. simpl.
  destruct w as [h0 lg mo st tu sp bm g0]; simpl in *.
  case_bool_decide; simpl; repeat split; try done.
  - eexists (cons _ (cons _ nil)). split; [done |]. by rewrite <- app_assoc.
  - eexists (cons _ nil). by split.
Qed.

(** When it is not the monster's turn, or there is no living monster, the
    attack does nothing. *)
Lemma handle_monster_attack_idle w :
  turn w <> MONSTER_TURN \/ monster_alive w = false -> handle_monster_attack w = w.
Proof.
  unfold handle_monster_attack, monster_alive.
  intros [Ht | Hm]; case_bool_decide; try done.
  destruct (monster w) as [m|]; [by rewrite Hm | done].
Qed.

Lemma start_monster_turn_idle w :
  turn w <> MONSTER_TURN \/ monster_alive w = false -> start_monster_turn w = w.
Proof.
  intros H. unfold start_monster_turn.
  destruct (monster_alive w) eqn:Hm; [| done].
  apply handle_monster_attack_idle. destruct H as [H | H]; [by left | done].
Qed.


(** ** What the helpers leave alone *)

(** [w'] differs from [w] at most in the buttons: the battle state, the
    combatants, the log and the random state are those of [w], and a button
    manager is stored in one exactly when it is in the other. *)
Definition buttons_only w w' : Prop :=
  hero w' = hero w /\ battle_log w' = battle_log w /\ monster w' = monster w
  /\ state w' = state w /\ turn w' = turn w /\ rng w' = rng w
  /\ (is_Some (button_manager w') <-> is_Some (button_manager w)).

Lemma buttons_only_refl w : buttons_only w w.
Proof. by repeat split. Qed.

Lemma buttons_only_trans w1 w2 w3 :
  buttons_only w1 w2 -> buttons_only w2 w3 -> buttons_only w1 w3.
Proof. unfold buttons_only. intros (?&?&?&?&?&?&?) (?&?&?&?&?&?&?). repeat split; try congruence; tauto. Qed.

Lemma ui_buttons_only f w : buttons_only w (ui f w).
Proof.
  destruct w. unfold buttons_only, ui, set_button_manager. simpl.
  rewrite fmap_is_Some. by repeat split.
Qed.

Lemma set_showing_potions_buttons_only b w : buttons_only w (set_showing_potions b w).
Proof. by destruct w. Qed.

Lemma _toggle_potion_buttons_buttons_only show w :
  buttons_only w (_toggle_potion_buttons show w).
Proof.
  unfold _toggle_potion_buttons.
  eapply buttons_only_trans; [apply (set_showing_potions_buttons_only show) | apply ui_buttons_only].
Qed.

Lemma _update_ability_button_states_buttons_only w :
  buttons_only w (_update_ability_button_states w).
Proof. apply ui_buttons_only. Qed.

Lemma _toggle_ability_buttons_buttons_only show w :
  buttons_only w (_toggle_ability_buttons show w).
Proof.
  unfold _toggle_ability_buttons. destruct show.
  - eapply buttons_only_trans; [apply ui_buttons_only |].
    eapply buttons_only_trans; [apply ui_buttons_only |].
    apply _update_ability_button_states_buttons_only.
  - apply ui_buttons_only.
Qed.

Lemma update_potion_buttons_buttons_only names w w' :
  (exists r, update_potion_buttons names w = Return r w')
  \/ (exists e, update_potion_buttons names w = Raise e w') ->
  buttons_only w w'.
Proof.
  revert w. induction names as [| name names IH]; intros w H; simpl in H.
  - destruct H as [[r H] | [e H]]; simplify_eq. apply buttons_only_refl.
  - destruct (Hero.potion_bag (hero w) !! name) as [k|] eqn:Hk.
    + apply IH in H. eapply buttons_only_trans; [| exact H].
      case_bool_decide; apply ui_buttons_only.
    + destruct H as [[r H] | [e H]]; simplify_eq. apply buttons_only_refl.
Qed.

(** ** The monster's reply *)

(** The three handlers that end the hero's turn finish with the same two
    lines, and those amount to [start_monster_turn]. *)
Lemma monster_reply w :
  (if monster_alive w then start_monster_turn w else w) = start_monster_turn w.
Proof. unfold start_monster_turn. by destruct (monster_alive w). Qed.

Lemma start_monster_turn_alive w :
  monster_alive w = true -> start_monster_turn w = handle_monster_attack w.
Proof. unfold start_monster_turn. by intros ->. Qed.

(** What [start_monster_turn] leaves alone, and the turn it ends in. *)
Lemma start_monster_turn_fields w :
  state (start_monster_turn w) = state w
  /\ monster (start_monster_turn w) = monster w
  /\ button_manager (start_monster_turn w) = button_manager w
  /\ (exists l, battle_log (start_monster_turn w) = battle_log w ++ l)
  /\ turn (start_monster_turn w)
     = (if bool_decide (turn w = MONSTER_TURN) && monster_alive w then HERO_TURN else turn w).
Proof.
  destruct (decide (turn w = MONSTER_TURN)) as [Ht | Ht];
    destruct (monster_alive w) eqn:Hm.
  - rewrite start_monster_turn_alive by done.
    apply monster_alive_true in Hm as (m & Hm & Ha).
    destruct (handle_monster_attack_alive w m Ht Hm Ha) as (_ & _ & Htu & Hst & Hmo & Hbm & l & _ & Hl).
    rewrite bool_decide_eq_true_2 by done. simpl. eauto 10.
  - rewrite start_monster_turn_idle by auto.
    rewrite andb_false_r. repeat split; try done. exists []. by rewrite app_nil_r.
  - rewrite start_monster_turn_idle by auto.
    rewrite bool_decide_eq_false_2 by done. repeat split; try done. exists []. by rewrite app_nil_r.
  - rewrite start_monster_turn_idle by auto.
    rewrite andb_false_r. repeat split; try done. exists []. by rewrite app_nil_r.
Qed.

(** ** The handlers, case by case *)

(** The guard shared by [use_ability], [use_potion], [handle_ability] and
    [handle_use_potion]. *)
Lemma guard_false_iff w (s : BattleState) :
  bool_decide (turn w <> HERO_TURN) || bool_decide (state w <> s)
    || negb (bool_decide (is_Some (button_manager w))) = false
  <-> turn w = HERO_TURN /\ state w = s /\ is_Some (button_manager w).
Proof.
  rewrite !orb_false_iff, negb_false_iff, !bool_decide_eq_false, bool_decide_eq_true.
  split.
  - intros [[Ht Hs] Hb]. repeat split; [| | done].
    + by destruct (decide (turn w = HERO_TURN)).
    + by destruct (decide (state w = s)).
  - intros (Ht & Hs & Hb). repeat split; auto.
Qed.

Lemma guard2_false_iff w :
  bool_decide (turn w <> HERO_TURN) || negb (bool_decide (is_Some (button_manager w))) = false
  <-> turn w = HERO_TURN /\ is_Some (button_manager w).
Proof.
  rewrite orb_false_iff, negb_false_iff, bool_decide_eq_false, bool_decide_eq_true.
  split.
  - intros [Ht Hb]. split; [| done]. by destruct (decide (turn w = HERO_TURN)).
  - intros (Ht & Hb). auto.
Qed.

Lemma handle_rest_off w : turn w <> HERO_TURN -> handle_rest w = w.
Proof. intros H. unfold handle_rest. by rewrite bool_decide_eq_true_2. Qed.

Lemma handle_rest_on w :
  turn w = HERO_TURN ->
  handle_rest w =
    start_monster_turn
      (set_turn MONSTER_TURN
         (set_state HOME
            (log (Hero.name (Hero_rest (hero w)) +:+ " rests to restore energy.")
               (set_hero (Hero_rest (hero w)) w)))).
Proof.
  intros H. unfold handle_rest. rewrite bool_decide_eq_false_2 by (rewrite H; auto).
  by rewrite monster_reply.
Qed.

Lemma use_potion_off n w :
  turn w <> HERO_TURN \/ state w <> USE_ITEM \/ button_manager w = None -> use_potion n w = w.
Proof.
  intros H. unfold use_potion.
  destruct (_ || _ || _) eqn:Hg; [done |].
  apply guard_false_iff in Hg as (Ht & Hs & [b Hb]). rewrite Hb in H. intuition congruence.
Qed.

Lemma use_potion_on n w :
  turn w = HERO_TURN -> state w = USE_ITEM -> is_Some (button_manager w) ->
  use_potion n w =
    start_monster_turn
      (set_turn MONSTER_TURN
         (set_state HOME
            (_toggle_potion_buttons false
               (log (Hero.name (Hero.use_potion n (hero w)) +:+ " used a " +:+ n +:+ "!")
                  (set_hero (Hero.use_potion n (hero w)) w))))).
Proof.
  intros Ht Hs Hb. unfold use_potion.
  rewrite (proj2 (guard_false_iff w USE_ITEM)) by done.
  by rewrite monster_reply.
Qed.

Lemma use_ability_off n w :
  turn w <> HERO_TURN \/ state w <> USE_ABILITY \/ button_manager w = None
  \/ monster_alive w = false ->
  use_ability n w = w.
Proof.
  intros H. unfold use_ability.
  destruct (_ || _ || _) eqn:Hg; [done |].
  apply guard_false_iff in Hg as (Ht & Hs & [b Hb]). rewrite Hb in H.
  unfold monster_alive in H. destruct (monster w) as [m|]; [| done].
  destruct (Monster.is_alive m); [intuition congruence | done].
Qed.

(** The rejected uses: one log line and nothing else. *)
Lemma use_ability_rejected n w m :
  turn w = HERO_TURN -> state w = USE_ABILITY -> is_Some (button_manager w) ->
  monster w = Some m -> Monster.is_alive m = true ->
  match find_ability (hero w) n (Hero.abilities (hero w)) with
  | OnCooldown => use_ability n w = log (cooldown_message n) w
  | NotEnoughEnergy => use_ability n w = log (energy_message n) w
  | Unknown => use_ability n w = log (Hero.name (hero w) +:+ " doesn't know " +:+ n +:+ "!") w
  | Target _ => True
  end.
Proof.
  intros Ht Hs Hb Hm Ha. unfold use_ability.
  rewrite (proj2 (guard_false_iff w USE_ABILITY)) by done.
  rewrite Hm, Ha. by destruct (find_ability _ _ _).
Qed.

(** The accepted use: the state the hero's action leaves, then the
    monster's reply. *)
Lemma use_ability_accepted n w m a :
  turn w = HERO_TURN -> state w = USE_ABILITY -> is_Some (button_manager w) ->
  monster w = Some m -> Monster.is_alive m = true ->
  find_ability (hero w) n (Hero.abilities (hero w)) = Target a ->
  exists w1,
    use_ability n w = start_monster_turn (set_turn MONSTER_TURN (set_state HOME w1))
    /\ monster w1 = Some (UseResult.monster (Ability_use a (hero w) m (rng w)))
    /\ (is_Some (button_manager w1)).
Proof.
  intros Ht Hs Hb Hm Ha Hf. unfold use_ability.
  rewrite (proj2 (guard_false_iff w USE_ABILITY)) by done.
  rewrite Hm, Ha, Hf. rewrite monster_reply.
  eexists. split; [reflexivity |].
  set (r := Ability_use a (hero w) m (rng w)).
  match goal with |- context [_toggle_ability_buttons false ?x] =>
    destruct (_toggle_ability_buttons_buttons_only false x) as (_ & _ & Hmo & _ & _ & _ & Hbm);
    set (w2 := x) in *
  end.
  assert (monster w2 = Some (UseResult.monster r) /\ is_Some (button_manager w2)) as [Hm2 Hb2].
  { subst w2. unfold log_effect.
    repeat case_match; destruct w; simpl in *; done. }
  split.
  - destruct (_toggle_ability_buttons false w2); simpl in *. congruence.
  - destruct (_toggle_ability_buttons false w2); simpl in *. tauto.
Qed.

Lemma handle_flee_off w : turn w <> HERO_TURN -> handle_flee w = (false, w).
Proof. intros H. unfold handle_flee. by rewrite bool_decide_eq_true_2. Qed.

Lemma handle_flee_on w : turn w = HERO_TURN -> handle_flee w = (true, set_state RUN_AWAY w).
Proof. intros H. unfold handle_flee. by rewrite bool_decide_eq_false_2 by (rewrite H; auto). Qed.

Lemma handle_ability_off o w :
  turn w <> HERO_TURN \/ button_manager w = None -> handle_ability o w = w.
Proof.
  intros H. unfold handle_ability.
  destruct (_ || _) eqn:Hg; [done |].
  apply guard2_false_iff in Hg as (Ht & [b Hb]). rewrite Hb in H. intuition congruence.
Qed.

Lemma handle_use_potion_off w :
  turn w <> HERO_TURN \/ button_manager w = None -> handle_use_potion w = Return tt w.
Proof.
  intros H. unfold handle_use_potion.
  destruct (_ || _) eqn:Hg; [done |].
  apply guard2_false_iff in Hg as (Ht & [b Hb]). rewrite Hb in H. intuition congruence.
Qed.

(** ** The submenu invariant *)

Lemma submenu_registered_buttons_only w w' :
  buttons_only w w' -> submenu_registered w -> submenu_registered w'.
Proof.
  unfold submenu_registered. intros (_ & _ & _ & Hs & _ & _ & Hb) H.
  rewrite Hs, Hb. exact H.
Qed.

Lemma submenu_registered_start_monster_turn w :
  submenu_registered w -> submenu_registered (start_monster_turn w).
Proof.
  unfold submenu_registered.
  destruct (start_monster_turn_fields w) as (-> & _ & -> & _). auto.
Qed.

Lemma submenu_registered_home w w' :
  state w' = HOME \/ state w' = RUN_AWAY \/ state w' = MONSTER_DEFEATED ->
  submenu_registered w'.
Proof. unfold submenu_registered. intros H [Hs | Hs]; rewrite Hs in H; intuition congruence. Qed.

Lemma is_Some_update_button_states b w : is_Some (button_manager (update_button_states b w)).
Proof.
  assert (Hb : is_Some (button_manager (set_button_manager (Some b) w))) by (by destruct w).
  unfold update_button_states. revert Hb. generalize (set_button_manager (Some b) w).
  intros w0 Hb.
  repeat first
    [ done
    | case_bool_decide
    | match goal with
      | |- is_Some (button_manager (start_monster_turn ?x)) =>
          destruct (start_monster_turn_fields x) as (_ & _ & -> & _)
      | |- is_Some (button_manager (_toggle_ability_buttons ?s ?x)) =>
          apply (_toggle_ability_buttons_buttons_only s x)
      | |- is_Some (button_manager (_toggle_potion_buttons ?s ?x)) =>
          apply (_toggle_potion_buttons_buttons_only s x)
      | |- is_Some (button_manager (ui ?f ?x)) => apply (ui_buttons_only f x)
      | |- is_Some (button_manager (if ?c then _ else _)) => destruct c
      end ].
Qed.

Lemma submenu_registered_handle_use_potion w w' :
  (exists r, handle_use_potion w = Return r w') \/ (exists e, handle_use_potion w = Raise e w') ->
  submenu_registered w -> submenu_registered w'.
Proof.
  unfold handle_use_potion, _update_potion_button_states.
  destruct (bool_decide (turn w <> HERO_TURN)
            || negb (bool_decide (is_Some (button_manager w)))) eqn:Hg.
  { intros [[r H] | [e H]]; by simplify_eq. }
  apply guard2_false_iff in Hg as [_ Hb].
  case_bool_decide as Hs.
  - intros [[r H] | [e H]] _; simplify_eq.
    apply (submenu_registered_home w).
    destruct (_toggle_potion_buttons_buttons_only false (set_state HOME w))
      as (_ & _ & _ & -> & _).
    destruct w; auto.
  - intros H _ _. apply update_potion_buttons_buttons_only in H as (_ & _ & _ & _ & _ & _ & ->).
    apply (_toggle_potion_buttons_buttons_only true (set_state USE_ITEM w)).
    by destruct w.
Qed.

Lemma submenu_registered_handle_ability o w :
  submenu_registered w -> submenu_registered (handle_ability o w).
Proof.
  intros H. unfold handle_ability.
  destruct (_ || _) eqn:Hg; [done |].
  apply guard2_false_iff in Hg as [Ht Hb].
  assert (Htoggle :
    submenu_registered
      (if bool_decide (state w = USE_ABILITY)
       then _toggle_ability_buttons false (set_state HOME w)
       else _update_ability_button_states
              (_toggle_ability_buttons true (set_state USE_ABILITY w)))).
  { case_bool_decide.
    - apply (submenu_registered_home w).
      destruct (_toggle_ability_buttons_buttons_only false (set_state HOME w))
        as (_ & _ & _ & -> & _).
      destruct w; auto.
    - intros _.
      apply (_update_ability_button_states_buttons_only _).
      apply (_toggle_ability_buttons_buttons_only true (set_state USE_ABILITY w)).
      by destruct w. }
  destruct o as [[| c n] |]; try exact Htoggle.
  clear Htoggle.
  (* a name was given: [use_ability] *)
  unfold submenu_registered in *. intros Hs.
  destruct (decide (state w = USE_ABILITY)) as [Hu | Hu];
    [| rewrite use_ability_off by auto; rewrite use_ability_off in Hs by auto; auto].
  destruct (monster_alive w) eqn:Hm;
    [| rewrite use_ability_off by auto; rewrite use_ability_off in Hs by auto; auto].
  apply monster_alive_true in Hm as (m & Hm & Ha).
  pose proof (use_ability_rejected (String c n) w m Ht Hu Hb Hm Ha) as Hr.
  destruct (find_ability _ _ _) as [| | a |] eqn:Hf;
    try (rewrite Hr; by rewrite (proj1 (proj2 (proj2 (proj2 (proj2 (log_fields _ w))))))).
  destruct (use_ability_accepted (String c n) w m a Ht Hu Hb Hm Ha Hf) as (w1 & Hw & _ & Hb1).
  rewrite Hw. destruct (start_monster_turn_fields (set_turn MONSTER_TURN (set_state HOME w1)))
    as (_ & _ & -> & _).
  by destruct w1.
Qed.

Lemma submenu_registered_use_ability n w :
  submenu_registered w -> submenu_registered (use_ability n w).
Proof.
  intros H.
  destruct (decide (turn w = HERO_TURN)) as [Ht | Ht]; [| by rewrite use_ability_off by auto].
  destruct (decide (state w = USE_ABILITY)) as [Hu | Hu]; [| by rewrite use_ability_off by auto].
  destruct (button_manager w) as [b|] eqn:Hb; [| by rewrite use_ability_off by auto].
  assert (Hb' : is_Some (button_manager w)) by (rewrite Hb; eauto).
  destruct (monster_alive w) eqn:Hm; [| by rewrite use_ability_off by auto].
  apply monster_alive_true in Hm as (m & Hm & Ha).
  pose proof (use_ability_rejected n w m Ht Hu Hb' Hm Ha) as Hr.
  unfold submenu_registered.
  destruct (find_ability _ _ _) as [| | a |] eqn:Hf;
    try (rewrite Hr; by rewrite (proj1 (proj2 (proj2 (proj2 (proj2 (log_fields _ w))))))).
  destruct (use_ability_accepted n w m a Ht Hu Hb' Hm Ha Hf) as (w1 & Hw & _ & Hb1).
  rewrite Hw. destruct (start_monster_turn_fields (set_turn MONSTER_TURN (set_state HOME w1)))
    as (_ & _ & -> & _).
  by destruct w1.
Qed.

(** Every state the manager can be in keeps the invariant: a submenu is
    only ever opened through a stored button manager. *)
Lemma reachable_submenu_registered w : reachable w -> submenu_registered w.
Proof.
  induction 1 as
    [ h lg g | m w _ IH | w r w' _ IH Hu | w e w' _ IH Hu | w _ IH | b w _ IH | w _ IH
    | w _ IH | o w _ IH | w _ IH | w r w' _ IH Hu | w e w' _ IH Hu | n w _ IH | w _ IH
    | n w _ IH | h w _ IH | f w _ IH | msg w _ IH | f w _ IH | g w _ IH ].
  - by apply (submenu_registered_home (init h lg g)); left.
  - apply (submenu_registered_home w). left. by destruct w.
  - unfold update_battle_state in Hu.
    repeat case_match; simplify_eq; try done.
    unfold handle_monster_defeat. case_match; [| done].
    apply (submenu_registered_home w). right; right. by destruct w.
  - unfold update_battle_state in Hu. repeat case_match; by simplify_eq.
  - unfold handle_monster_defeat. case_match; [| done].
    apply (submenu_registered_home w). right; right. by destruct w.
  - intros _. apply is_Some_update_button_states.
  - destruct (decide (turn w = MONSTER_TURN)) as [Ht | Ht];
      [| by rewrite handle_monster_attack_idle by auto].
    destruct (monster_alive w) eqn:Hm; [| by rewrite handle_monster_attack_idle by auto].
    rewrite <- start_monster_turn_alive by done.
    by apply submenu_registered_start_monster_turn.
  - by apply submenu_registered_start_monster_turn.
  - by apply submenu_registered_handle_ability.
  - destruct (decide (turn w = HERO_TURN)) as [Ht | Ht]; [| by rewrite handle_rest_off].
    rewrite handle_rest_on by done.
    apply (submenu_registered_home w). left.
    by destruct (start_monster_turn_fields
                   (set_turn MONSTER_TURN
                      (set_state HOME
                         (log (Hero.name (Hero_rest (hero w)) +:+ " rests to restore energy.")
                            (set_hero (Hero_rest (hero w)) w))))) as (-> & _).
  - eapply submenu_registered_handle_use_potion; eauto.
  - eapply submenu_registered_handle_use_potion; eauto.
  - destruct (decide (turn w = HERO_TURN)) as [Ht | Ht]; [| by rewrite use_potion_off by auto].
    destruct (decide (state w = USE_ITEM)) as [Hs | Hs]; [| by rewrite use_potion_off by auto].
    destruct (button_manager w) as [b|] eqn:Hb; [| by rewrite use_potion_off by auto].
    rewrite use_potion_on by (rewrite ?Hb; eauto).
    apply (submenu_registered_home w). left.
    match goal with |- state (start_monster_turn ?x) = _ =>
      by destruct (start_monster_turn_fields x) as (-> & _) end.
  - unfold handle_flee. case_bool_decide; [done |].
    apply (submenu_registered_home w). right; left. by destruct w.
  - by apply submenu_registered_use_ability.
  - by destruct w.
  - by destruct w.
  - by destruct w.
  - apply (submenu_registered_buttons_only w); [apply ui_buttons_only | done].
  - by destruct w.
Qed.

(** ** Abilities on cooldown *)

(** The ability a name resolves to is the first of the hero's abilities
    that carries it; when that one is on cooldown the search loop of
    [use_ability] stops there, whatever the hero's energy. *)
Lemma find_ability_on_cooldown h n (l : list Ability.t) a :
  List.find (fun b => bool_decide (Ability.name b = n)) l = Some a ->
  Ability.current_cooldown a <> 0 ->
  find_ability h n l = OnCooldown.
Proof.
  intros Hf Hc. induction l as [| b l IH]; simpl in *; [done |].
  case_bool_decide; [| auto].
  simplify_eq. unfold Ability.can_use. by rewrite bool_decide_eq_false_2.
Qed.

Lemma use_ability_on_cooldown w n a :
  turn w = HERO_TURN -> state w = USE_ABILITY -> is_Some (button_manager w) ->
  monster_alive w = true ->
  List.find (fun b => bool_decide (Ability.name b = n)) (Hero.abilities (hero w)) = Some a ->
  0 < Ability.current_cooldown a ->
  use_ability n w = log (cooldown_message n) w.
Proof.
  intros Ht Hs Hb Hm Hf Hc.
  apply monster_alive_true in Hm as (m & Hm & Ha).
  pose proof (use_ability_rejected n w m Ht Hs Hb Hm Ha) as Hr.
  by rewrite (find_ability_on_cooldown (hero w) n _ a) in Hr by (done || lia).
Qed.

Lemma string_length_app (s1 s2 : string) :
  String.length (s1 +:+ s2) = (String.length s1 + String.length s2)%nat.
Proof. induction s1 as [| c s1 IH]; simpl; [done | by rewrite IH]. Qed.

Lemma cooldown_message_not_energy_message n : cooldown_message n <> energy_message n.
Proof.
  intros H. apply (f_equal String.length) in H.
  unfold cooldown_message, energy_message in H.
  rewrite !string_length_app in H. simpl in H. lia.
Qed.

(** C6: on the hero's turn in USE_ABILITY with the monster alive, using a
    known ability whose cooldown is above zero changes neither the hero's
    energy nor [turn] nor [battle_state], and appends exactly one log entry,
    the cooldown message. *)
Theorem use_ability_cooldown_no_op w n a :
  reachable w ->
  turn w = HERO_TURN -> state w = USE_ABILITY -> monster_alive w = true ->
  List.find (fun b => bool_decide (Ability.name b = n)) (Hero.abilities (hero w)) = Some a ->
  0 < Ability.current_cooldown a ->
  let w' := use_ability n w in
  Hero.energy (hero w') = Hero.energy (hero w)
  /\ turn w' = turn w
  /\ state w' = state w
  /\ battle_log w' = battle_log w ++ [cooldown_message n].
Proof.
  intros Hr Ht Hs Hm Hf Hc w'. subst w'.
  assert (Hb : is_Some (button_manager w)).
  { apply reachable_submenu_registered in Hr. apply Hr. by right. }
  rewrite (use_ability_on_cooldown w n a) by done.
  by destruct w.
Qed.

(** C7: the cooldown check comes before the energy check: for an ability
    that is both on cooldown and too expensive, the line appended to the
    log is the cooldown message, which is never the insufficient-energy
    message. *)
Theorem use_ability_cooldown_before_energy w n a :
  reachable w ->
  turn w = HERO_TURN -> state w = USE_ABILITY -> monster_alive w = true ->
  List.find (fun b => bool_decide (Ability.name b = n)) (Hero.abilities (hero w)) = Some a ->
  0 < Ability.current_cooldown a ->
  Hero.energy (hero w) < Ability.energy_cost a ->
  battle_log (use_ability n w) = battle_log w ++ [cooldown_message n]
  /\ cooldown_message n <> energy_message n
  /\ energy_message n ∉ drop (length (battle_log w)) (battle_log (use_ability n w)).
Proof.
  intros Hr Ht Hs Hm Hf Hc He.
  assert (Hb : is_Some (button_manager w)).
  { apply reachable_submenu_registered in Hr. apply Hr. by right. }
  rewrite (use_ability_on_cooldown w n a) by done.
  destruct (log_fields (cooldown_message n) w) as (_ & _ & _ & _ & _ & ->).
  pose proof (cooldown_message_not_energy_message n) as Hne.
  repeat split; [done |].
  rewrite drop_app_length. rewrite list_elem_of_singleton. congruence.
Qed.

(** ** Polling for the end of the battle *)



(** The poll before any battle has started: line 62 reaches for the
    monster, and there is none. *)
Lemma update_battle_state_no_monster w :
  state w <> MONSTER_DEFEATED -> Hero.is_alive (hero w) = true -> monster w = None ->
  update_battle_state w = Raise AttributeError w.
Proof.
  intros Hs Hh Hm. unfold update_battle_state.
  by rewrite bool_decide_eq_true_2, Hh, Hm.
Qed.


(** ** Inert calls *)

(** C10: while no button manager is stored, [handle_ability],
    [handle_use_potion], [use_potion] and [use_ability] change nothing and
    log nothing, even on the hero's turn; [handle_rest] and [handle_flee]
    do not look at the button manager and still act on the hero's turn. *)
Theorem no_button_manager_no_op w :
  button_manager w = None ->
  (forall o, handle_ability o w = w)
  /\ handle_use_potion w = Return tt w
  /\ (forall n, use_potion n w = w)
  /\ (forall n, use_ability n w = w)
  /\ (turn w = HERO_TURN ->
      handle_flee w = (true, set_state RUN_AWAY w)
      /\ exists l, battle_log (handle_rest w)
                   = battle_log w
                     ++ (Hero.name (Hero_rest (hero w)) +:+ " rests to restore energy.") :: l).
Proof.
  intros Hb. repeat split.
  - intros o. apply handle_ability_off. auto.
  - apply handle_use_potion_off. auto.
  - intros n. apply use_potion_off. auto.
  - intros n. apply use_ability_off. auto.
  - by apply handle_flee_on.
  - rewrite handle_rest_on by done.
    match goal with |- context [start_monster_turn ?x] =>
      destruct (start_monster_turn_fields x) as (_ & _ & _ & [l Hl] & _) end.
    exists l. rewrite Hl. destruct w; simpl. by rewrite <- app_assoc.
Qed.


(** ** Whose turn it is when a handler returns *)



(** ** The button layout *)

Lemma ButtonManager_eq (m1 m2 : ButtonManager.t) :
  ButtonManager.buttons m1 = ButtonManager.buttons m2 ->
  ButtonManager.hero_ability_buttons m1 = ButtonManager.hero_ability_buttons m2 ->
  m1 = m2.
Proof. destruct m1, m2; simpl; congruence. Qed.

Lemma buttons_on_button k f (m : ButtonManager.t) :
  ButtonManager.buttons (ButtonManager.on_button k f m) = alter f k (ButtonManager.buttons m).
Proof. done. Qed.

Lemma abilities_on_button k f (m : ButtonManager.t) :
  ButtonManager.hero_ability_buttons (ButtonManager.on_button k f m)
  = ButtonManager.hero_ability_buttons m.
Proof. done. Qed.

Lemma for_buttons_nil f (m : ButtonManager.t) : ButtonManager.for_buttons [] f m = m.
Proof. done. Qed.

Lemma for_buttons_cons k ks f (m : ButtonManager.t) :
  ButtonManager.for_buttons (k :: ks) f m
  = ButtonManager.for_buttons ks f (ButtonManager.on_button k f m).
Proof. done. Qed.

Lemma buttons_clear (m : ButtonManager.t) :
  ButtonManager.buttons (ButtonManager.clear_hero_ability_buttons m) = ButtonManager.buttons m.
Proof. done. Qed.

Lemma abilities_clear (m : ButtonManager.t) :
  ButtonManager.hero_ability_buttons (ButtonManager.clear_hero_ability_buttons m) = [].
Proof. done. Qed.

Lemma buttons_set_abilities l (m : ButtonManager.t) :
  ButtonManager.buttons (ButtonManager.set_hero_ability_buttons l m) = ButtonManager.buttons m.
Proof. done. Qed.

Lemma abilities_set_abilities l (m : ButtonManager.t) :
  ButtonManager.hero_ability_buttons (ButtonManager.set_hero_ability_buttons l m) = l.
Proof. done. Qed.

Lemma add_hero_ability_buttons (l : list Ability.t) (m : ButtonManager.t) :
  foldl (fun (m : ButtonManager.t) ability => ButtonManager.add_hero_ability_button ability m) m l
  = ButtonManager.mk (ButtonManager.buttons m)
      (ButtonManager.hero_ability_buttons m
       ++ ((fun a => Button.mk (Ability.name a) false true) <$> l)).
Proof.
  revert m. induction l as [| a l IH]; intros [bs hab]; simpl.
  - by rewrite app_nil_r.
  - rewrite IH. simpl. by rewrite <- app_assoc.
Qed.

(** One button after one operation: the operation applies to the button it
    names and to no other. *)
Lemma lookup_on_button k f (m : ButtonManager.t) i :
  ButtonManager.buttons (ButtonManager.on_button k f m) !! i
  = (if decide (k = i) then f else id) <$> ButtonManager.buttons m !! i.
Proof.
  rewrite buttons_on_button, lookup_alter.
  case_decide; [by subst | by rewrite option_fmap_id].
Qed.

(** Two chains of button operations leave the same named buttons when they
    agree on each of them. *)
Ltac same_buttons :=
  apply map_eq; intros i;
  repeat first
    [ rewrite lookup_on_button | rewrite buttons_clear | rewrite buttons_set_abilities
    | rewrite for_buttons_cons | rewrite for_buttons_nil | rewrite add_hero_ability_buttons
    | progress cbn [ButtonManager.buttons] ];
  match goal with |- context [ButtonManager.buttons ?b !! i] =>
    destruct (ButtonManager.buttons b !! i) as [[t l v] |]; [| reflexivity] end;
  cbn [fmap option_fmap option_map]; f_equal;
  repeat (case_decide; simplify_eq; try done).

Ltac same_abilities :=
  repeat first
    [ rewrite add_hero_ability_buttons | rewrite abilities_clear
    | rewrite abilities_set_abilities | rewrite abilities_on_button
    | rewrite for_buttons_cons | rewrite for_buttons_nil
    | progress cbn [ButtonManager.hero_ability_buttons] ];
  reflexivity.

Ltac same_layout := apply ButtonManager_eq; [same_buttons | same_abilities].

(** Running the manager's own code on a state whose fields are known. *)
Ltac run_manager :=
  lazy beta iota zeta delta
    [_toggle_potion_buttons _toggle_ability_buttons
     _update_ability_button_states ui set_button_manager set_showing_potions
     state turn hero button_manager battle_log monster showing_potions rng
     fmap option_fmap option_map monster_alive start_monster_turn monster_turn_pending
     default from_option].

Lemma if_ui (p : bool) f1 f2 w :
  (if p then ui f1 w else ui f2 w) = ui (if p then f1 else f2) w.
Proof. by destruct p. Qed.

(** With no monster's turn pending, [update_button_states] stores the
    button manager it is given after a layout step [T] that depends on the
    battle state, the turn and the hero only, and sets or keeps
    [showing_potions]; laying the buttons out a second time changes
    nothing. *)
Lemma update_button_states_layout w :
  exists (T : ButtonManager.t -> ButtonManager.t) (osp : option bool),
    (forall w2 b, state w2 = state w -> turn w2 = turn w -> hero w2 = hero w ->
       monster_turn_pending w2 = false ->
       update_button_states b w2
       = set_showing_potions (default (showing_potions w2) osp)
           (set_button_manager (Some (T b)) w2))
    /\ forall b, T (T b) = T b.
Proof.
  destruct w as [h lg mo st tu sp bm g].
  destruct st, tu;
    eexists;
    match goal with
    | |- context [mkBattleManager _ _ _ ?st ?tu] =>
        exists (match st, tu with
                | MONSTER_DEFEATED, _ => Some false
                | RUN_AWAY, HERO_TURN => None
                | USE_ITEM, HERO_TURN => Some true
                | _, _ => Some false
                end)
    end;
    (split;
     [ intros [h2 lg2 mo2 st2 tu2 sp2 bm2 g2] b Hs Ht Hh Hp; simpl in Hs, Ht, Hh; subst;
       unfold update_button_states; cbv zeta; rewrite ?if_ui;
       revert Hp; run_manager;
       repeat (case_bool_decide; simplify_eq); cbn [andb negb];
       try (destruct mo2 as [m2|]; [intros -> | intros _]); try intros _;
       reflexivity
     | intros b ]).
  all: try destruct (Hero.has_potions h).
  all: same_layout.
Qed.

(** C1, as the code has it: unless a monster's turn is pending,
    [update_button_states] changes neither the battle state ([turn],
    [battle_state], monster, log) nor the hero, and a second call in a row,
    on the button manager the first one stored, changes nothing at all. *)
Theorem update_button_states_frame b w :
  monster_turn_pending w = false ->
  let w' := update_button_states b w in
  hero w' = hero w /\ battle_log w' = battle_log w /\ monster w' = monster w
  /\ state w' = state w /\ turn w' = turn w
  /\ exists b', button_manager w' = Some b' /\ update_button_states b' w' = w'.
Proof.
  intros Hp w'. subst w'.
  destruct (update_button_states_layout w) as (T & osp & Hc & Hi).
  rewrite (Hc w b) by done.
  repeat (split; [by destruct w |]).
  exists (T b). split; [by destruct w |].
  rewrite Hc by (by destruct w).
  rewrite Hi. by destruct w, osp.
Qed.

(** With a monster's turn pending, [update_button_states] is where the
    monster attacks (line 114). *)
Lemma update_button_states_pending b w :
  monster_turn_pending w = true ->
  let w' := update_button_states b w in
  turn w' = HERO_TURN
  /\ exists l, l <> [] /\ battle_log w' = battle_log w ++ l.
Proof.
  intros Hp w'. subst w'. revert Hp.
  unfold monster_turn_pending. rewrite !andb_true_iff, !bool_decide_eq_true.
  intros [[Hs Ht] Hm].
  unfold update_button_states. cbv zeta.
  rewrite bool_decide_eq_false_2 by (by destruct w).
  rewrite bool_decide_eq_true_2 by (by destruct w).
  match goal with |- context [start_monster_turn ?x] =>
    assert (Hb : buttons_only (set_button_manager (Some b) w) x) end.
  { eapply buttons_only_trans; [| apply _toggle_ability_buttons_buttons_only].
    eapply buttons_only_trans; [| apply _toggle_potion_buttons_buttons_only].
    eapply buttons_only_trans; [| apply ui_buttons_only].
    apply ui_buttons_only. }
  match goal with |- context [start_monster_turn ?x] => set (w1 := x) in * end.
  destruct Hb as (_ & Hl & Hmo & _ & Htu & _).
  assert (Hm1 : monster_alive w1 = true).
  { unfold monster_alive in *. rewrite Hmo. by destruct w. }
  rewrite start_monster_turn_alive by done.
  apply monster_alive_true in Hm1 as (m & Hm1 & Ha).
  assert (Ht1 : turn w1 = MONSTER_TURN) by (rewrite Htu; by destruct w).
  destruct (handle_monster_attack_alive w1 m Ht1 Hm1 Ha)
    as (_ & _ & Hturn & _ & _ & _ & l & Hne & Hlog).
  split; [done |]. exists l. split; [done |].
  rewrite Hlog, Hl. by destruct w.
Qed.

(** The manager's own handlers never leave a monster's turn pending: each
    of them ends in [start_monster_turn], after which either the turn is the
    hero's or no living monster is there. *)
Lemma start_monster_turn_not_pending w :
  monster_turn_pending (start_monster_turn w) = false.
Proof.
  unfold monster_turn_pending, monster_alive.
  destruct (start_monster_turn_fields w) as (_ & -> & _ & _ & ->).
  fold (monster_alive w).
  destruct (bool_decide (turn w = MONSTER_TURN)) eqn:Ht, (monster_alive w); simpl;
    rewrite ?andb_false_r; try done.
  by rewrite Ht, andb_false_r.
Qed.

Lemma hero_action_not_pending w :
  turn w = HERO_TURN ->
  monster_turn_pending (handle_rest w) = false
  /\ (forall n, monster_turn_pending (use_potion n w) = false)
  /\ (forall n, monster_alive w = true ->
        monster_turn_pending (use_ability n w) = false).
Proof.
  intros Ht.
  assert (Hw : monster_turn_pending w = false).
  { unfold monster_turn_pending. rewrite Ht. simpl. by rewrite andb_false_r. }
  repeat split.
  - rewrite handle_rest_on by done. apply start_monster_turn_not_pending.
  - intros n.
    destruct (decide (state w = USE_ITEM)) as [Hs | Hs]; [| by rewrite use_potion_off by auto].
    destruct (button_manager w) as [b|] eqn:Hb; [| by rewrite use_potion_off by auto].
    rewrite use_potion_on by (rewrite ?Hb; eauto). apply start_monster_turn_not_pending.
  - intros n Hm.
    destruct (decide (state w = USE_ABILITY)) as [Hs | Hs]; [| by rewrite use_ability_off by auto].
    destruct (button_manager w) as [b|] eqn:Hb; [| by rewrite use_ability_off by auto].
    assert (Hb' : is_Some (button_manager w)) by (rewrite Hb; eauto).
    apply monster_alive_true in Hm as (m & Hm & Ha).
    pose proof (use_ability_rejected n w m Ht Hs Hb' Hm Ha) as Hr.
    destruct (find_ability _ _ _) as [| | a |] eqn:Hf;
      try (rewrite Hr, <- Hw; by destruct w).
    destruct (use_ability_accepted n w m a Ht Hs Hb' Hm Ha Hf) as (w1 & -> & _).
    apply start_monster_turn_not_pending.
Qed.

End Properties.

(** * The properties on the sample game *)


(** C3: polling [update_battle_state] on a manager that has not been given
    a monster, with the hero alive, raises [AttributeError] instead of being
    a silent no-op. *)
Theorem update_battle_state_before_start_battle :
  monster fresh = None
  /\ update_battle_state fresh = Raise AttributeError fresh.
Proof. split; reflexivity. Qed.

(** C2: [use_potion] on an empty potion slot is not a rejection: the log
    claims the potion was used, the submenu closes, the turn is spent and
    the monster attacks. *)
Theorem use_potion_empty_slot :
  let w := potion_menu in
  let w' := use_potion "Health Potion" w in
  Hero.potion_bag (hero w) !! "Health Potion" = Some 0
  /\ turn w = HERO_TURN /\ state w = USE_ITEM
  /\ hero (set_hero (Hero.use_potion "Health Potion" (hero w)) w) = hero w
  /\ state w' = HOME
  /\ Hero.current_hp (hero w) = 20 /\ Hero.current_hp (hero w') = 15
  /\ battle_log w'
     = battle_log w ++ ["Hero used a Health Potion!"; "Goblin attacks Hero for 5 damage."].
Proof. vm_compute. repeat split; reflexivity. Qed.

(** C1 fails where a monster's turn is pending: [update_button_states]
    lets the monster attack, so the hero, the log and the turn change, and
    a second call lays the buttons out differently. *)
Lemma update_button_states_attacks :
  let w' := update_button_states battle_buttons pending in
  turn pending = MONSTER_TURN /\ turn w' = HERO_TURN
  /\ Hero.current_hp (hero pending) = 20 /\ Hero.current_hp (hero w') = 15
  /\ battle_log w' = battle_log pending ++ ["Goblin attacks Hero for 5 damage."]
  /\ forall b', button_manager w' = Some b' -> update_button_states b' w' <> w'.
Proof.
  repeat split; try reflexivity.
  intros b' Hb Heq.
  apply (f_equal (fun w => b ← button_manager w; ButtonManager.buttons b !! "Rest")) in Heq.
  vm_compute in Hb. injection Hb as <-.
  vm_compute in Heq. discriminate.
Qed.

Lemma update_button_states_frame_witness :
  let w' := update_button_states battle_buttons ready in
  hero w' = hero ready /\ battle_log w' = battle_log ready /\ monster w' = monster ready
  /\ state w' = state ready /\ turn w' = turn ready
  /\ exists b', button_manager w' = Some b' /\ update_button_states b' w' = w'.
Proof.
  apply (update_button_states_frame (E := plain) battle_buttons ready). reflexivity.
Defined.



Lemma ability_menu_reachable : reachable ability_menu.
Proof.
  unfold ability_menu, ready, fresh.
  apply reach_handle_ability, reach_start_battle, reach_update_button_states, reach_init.
Defined.

Lemma use_ability_cooldown_no_op_witness :
  let w' := use_ability "Fireball" ability_menu in
  Hero.energy (hero w') = Hero.energy (hero ability_menu)
  /\ turn w' = turn ability_menu
  /\ state w' = state ability_menu
  /\ battle_log w' = battle_log ability_menu ++ [cooldown_message "Fireball"].
Proof.
  apply (use_ability_cooldown_no_op (E := plain) ability_menu "Fireball" fireball);
    [exact ability_menu_reachable | reflexivity ..].
Defined.

Lemma use_ability_cooldown_before_energy_witness :
  battle_log (use_ability "Fireball" ability_menu)
  = battle_log ability_menu ++ [cooldown_message "Fireball"]
  /\ cooldown_message "Fireball" <> energy_message "Fireball"
  /\ energy_message "Fireball"
     ∉ drop (length (battle_log ability_menu)) (battle_log (use_ability "Fireball" ability_menu)).
Proof.
  apply (use_ability_cooldown_before_energy (E := plain) ability_menu "Fireball" fireball);
    [exact ability_menu_reachable | reflexivity ..].
Defined.




Lemma no_button_manager_no_op_witness :
  (forall o, handle_ability o fresh = fresh)
  /\ handle_use_potion fresh = Return tt fresh
  /\ (forall n, use_potion n fresh = fresh)
  /\ (forall n, use_ability n fresh = fresh)
  /\ (turn fresh = HERO_TURN ->
      handle_flee fresh = (true, set_state RUN_AWAY fresh)
      /\ exists l, battle_log (handle_rest fresh)
                   = battle_log fresh ++ ("Hero" +:+ " rests to restore energy.") :: l).
Proof.
  apply (no_button_manager_no_op (E := plain) fresh). reflexivity.
Defined.

(** * The hero's own methods *)

Section HeroProperties.

Implicit Types (h : Hero.t) (n : string).

Lemma Hero_use_potion_out_of_stock n h :
  Hero.potion_bag h !! n = None
  \/ (exists k, Hero.potion_bag h !! n = Some k /\ k <= 0) ->
  Hero.use_potion n h = h.
Proof.
  unfold Hero.use_potion. intros [-> | (k & -> & Hk)]; [done |].
  by rewrite bool_decide_eq_false_2 by lia.
Qed.

Lemma Hero_use_potion_bag n h k :
  Hero.potion_bag h !! n = Some k -> 0 < k ->
  Hero.potion_bag (Hero.use_potion n h) = <[n := k - 1]> (Hero.potion_bag h).
Proof.
  intros Hk Hpos. unfold Hero.use_potion. rewrite Hk, bool_decide_eq_true_2 by done.
  destruct h. simpl. repeat case_bool_decide; reflexivity.
Qed.

(** X1: a potion in stock is used up one at a time: the named count goes
    down by exactly one, no other count changes, and level, experience,
    gold, energy and abilities are untouched. *)
Theorem Hero_use_potion_takes_one n h k :
  Hero.potion_bag h !! n = Some k -> 0 < k ->
  let h' := Hero.use_potion n h in
  Hero.potion_bag h' !! n = Some (k - 1)
  /\ (forall n', n' <> n -> Hero.potion_bag h' !! n' = Hero.potion_bag h !! n')
  /\ Hero.level h' = Hero.level h /\ Hero.experience h' = Hero.experience h
  /\ Hero.gold h' = Hero.gold h /\ Hero.energy h' = Hero.energy h
  /\ Hero.abilities h' = Hero.abilities h.
Proof.
  intros Hk Hpos h'. subst h'.
  rewrite (Hero_use_potion_bag n h k) by done.
  split; [by rewrite lookup_insert_eq |].
  split; [intros n' Hn; by rewrite lookup_insert_ne |].
  unfold Hero.use_potion. rewrite Hk, bool_decide_eq_true_2 by done.
  destruct h. simpl. repeat case_bool_decide; done.
Qed.

(** X2: asking for a potion the bag does not hold, or holds none of, is
    not an error and changes nothing; counts that start non-negative stay
    non-negative whatever is asked for. *)
Theorem Hero_use_potion_never_overdraws n h :
  (forall n' c, Hero.potion_bag h !! n' = Some c -> 0 <= c) ->
  (forall n' c, Hero.potion_bag (Hero.use_potion n h) !! n' = Some c -> 0 <= c)
  /\ (default 0 (Hero.potion_bag h !! n) = 0 -> Hero.use_potion n h = h).
Proof.
  intros Hbag. split.
  - intros n' c. destruct (Hero.potion_bag h !! n) as [k|] eqn:Hk.
    + destruct (decide (0 < k)) as [Hpos | Hpos].
      * rewrite (Hero_use_potion_bag n h k) by done.
        destruct (decide (n = n')) as [<- | Hn].
        -- rewrite lookup_insert_eq. intros [= <-]. lia.
        -- rewrite lookup_insert_ne by done. apply Hbag.
      * rewrite Hero_use_potion_out_of_stock by (right; exists k; split; [done | lia]).
        apply Hbag.
    + rewrite Hero_use_potion_out_of_stock by auto. apply Hbag.
  - intros Hz. apply Hero_use_potion_out_of_stock.
    destruct (Hero.potion_bag h !! n) as [k|]; [right | by left].
    exists k. simpl in Hz. split; [done | lia].
Qed.

(** X3: no potion lowers the hero's health or lifts it above [max_hp], and
    a health potion in stock heals by five up to [max_hp]. *)
Theorem Hero_use_potion_health n h :
  Hero.current_hp h <= Hero.max_hp h ->
  let h' := Hero.use_potion n h in
  Hero.max_hp h' = Hero.max_hp h
  /\ Hero.current_hp h <= Hero.current_hp h' <= Hero.max_hp h
  /\ (n = "Health Potion" -> 0 < default 0 (Hero.potion_bag h !! n) ->
      Hero.current_hp h' = Z.min (Hero.max_hp h) (Hero.current_hp h + 5)).
Proof.
  intros Hhp h'. subst h'. unfold Hero.use_potion.
  destruct (Hero.potion_bag h !! n) as [k|] eqn:Hk; simpl; [| repeat split; (lia || done)].
  case_bool_decide; [| repeat split; (lia || done)].
  destruct h as [nm mx hp lv ex gd bag pd pb en ab]. simpl in *.
  repeat case_bool_decide; simpl; repeat split; try lia; try done.
  all: intros; subst; try done; lia.
Qed.

(** X4: [has_potions] tells exactly whether some potion can still be
    used: it is true iff [use_potion] changes the hero for some name. *)
Theorem Hero_has_potions_iff_usable h :
  Hero.has_potions h = true <-> exists n, Hero.use_potion n h <> h.
Proof.
  unfold Hero.has_potions. rewrite bool_decide_eq_true. split.
  - intros (n & k & Hk & Hpos). exists n. intros Heq.
    apply (f_equal (fun x => Hero.potion_bag x !! n)) in Heq.
    rewrite (Hero_use_potion_bag n h k), lookup_insert_eq, Hk in Heq by done.
    injection Heq. lia.
  - intros (n & Hn).
    destruct (Hero.potion_bag h !! n) as [k|] eqn:Hk.
    + destruct (decide (0 < k)) as [Hpos | Hpos]; [by exists n, k |].
      exfalso. apply Hn, Hero_use_potion_out_of_stock. right. exists k. split; [done | lia].
    + exfalso. apply Hn, Hero_use_potion_out_of_stock. by left.
Qed.

(** X5: [add_potion] raises the count of the named potion by the amount,
    starting from zero for a name the bag does not hold yet, and touches
    nothing else; a potion added is a potion that can be used, which brings
    the count back. *)
Theorem Hero_add_potion_count n amount h :
  let h' := Hero.add_potion n amount h in
  Hero.potion_bag h' !! n = Some (default 0 (Hero.potion_bag h !! n) + amount)
  /\ (forall n', n' <> n -> Hero.potion_bag h' !! n' = Hero.potion_bag h !! n')
  /\ h' = Hero.set_potion_bag (Hero.potion_bag h') h
  /\ (0 <= default 0 (Hero.potion_bag h !! n) -> amount = 1 ->
      Hero.potion_bag (Hero.use_potion n h') !! n = Some (default 0 (Hero.potion_bag h !! n))).
Proof.
  intros h'. subst h'.
  assert (Hbag : Hero.potion_bag (Hero.add_potion n amount h)
                 = <[n := default 0 (Hero.potion_bag h !! n) + amount]> (Hero.potion_bag h)).
  { unfold Hero.add_potion. destruct (Hero.potion_bag h !! n); by destruct h. }
  rewrite Hbag. split_and!.
  - by rewrite lookup_insert_eq.
  - intros n' Hn. by rewrite lookup_insert_ne.
  - unfold Hero.add_potion. destruct (Hero.potion_bag h !! n); by destruct h.
  - intros Hc ->.
    rewrite (Hero_use_potion_bag n _ (default 0 (Hero.potion_bag h !! n) + 1)).
    + rewrite lookup_insert_eq. f_equal. lia.
    + by rewrite Hbag, lookup_insert_eq.
    + lia.
Qed.

(** X6: [spend_gold] pays only what the purse holds: it succeeds exactly
    when the amount does not exceed the gold, takes off exactly the amount
    when it does, and otherwise leaves the hero as he was; a purse that is
    not in debt never gets into debt. *)
Theorem Hero_spend_gold_never_overdraws amount h :
  0 <= Hero.gold h ->
  let r := Hero.spend_gold amount h in
  (r.1 = true <-> amount <= Hero.gold h)
  /\ (r.1 = true -> r.2 = Hero.set_gold (Hero.gold h - amount) h)
  /\ (r.1 = false -> r.2 = h)
  /\ 0 <= Hero.gold r.2.
Proof.
  intros Hg r. subst r. unfold Hero.spend_gold.
  case_bool_decide; simpl; repeat split; try done; try lia.
Qed.

(** X7: gold gained can be spent again: [add_gold] followed by
    [spend_gold] of the same amount succeeds and gives the hero back. *)
Theorem Hero_add_gold_spend_gold amount h :
  0 <= Hero.gold h ->
  Hero.spend_gold amount (Hero.add_gold amount h) = (true, h).
Proof.
  intros Hg. unfold Hero.spend_gold, Hero.add_gold.
  destruct h as [nm mx hp lv ex gd bag pd pb en ab]. simpl in *.
  rewrite bool_decide_eq_true_2 by lia. unfold Hero.set_gold. simpl.
  do 2 f_equal. lia.
Qed.

(** X8: one call of [gain_experience] gives at most one level, however
    much experience comes in: on a level-up the counter restarts at zero and
    the surplus is dropped; afterwards the counter is below the threshold of
    the level reached. *)
Theorem Hero_gain_experience_one_level e h :
  0 <= Hero.level h ->
  let h' := Hero.gain_experience e h in
  (Hero.level h' = Hero.level h /\ Hero.experience h' = Hero.experience h + e
   \/ Hero.level h' = Hero.level h + 1 /\ Hero.experience h' = 0
      /\ 10 * Hero.level h <= Hero.experience h + e)
  /\ Hero.experience h' < 10 * Hero.level h'
  /\ Hero.gold h' = Hero.gold h
  /\ Hero.potion_bag h' = Hero.potion_bag h.
Proof.
  intros Hl h'. subst h'. unfold Hero.gain_experience, Hero.level_up.
  destruct h as [nm mx hp lv ex gd bag pd pb en ab]. simpl in *.
  case_bool_decide; simpl; repeat split; try done; try lia.
Qed.

(** X9: levelling up never costs health: [level_up] and [gain_experience]
    keep [current_hp <= max_hp], and lower neither of them; a level-up heals
    by five and stretches [max_hp] when the healed value passes it. *)
Theorem Hero_level_up_health e h :
  Hero.current_hp h <= Hero.max_hp h ->
  let grown := Hero.level_up h in
  let h' := Hero.gain_experience e h in
  Hero.current_hp grown = Hero.current_hp h + 5
  /\ Hero.max_hp grown = Z.max (Hero.max_hp h) (Hero.current_hp h + 5)
  /\ Hero.current_hp h <= Hero.current_hp h' <= Hero.max_hp h'
  /\ Hero.max_hp h <= Hero.max_hp h'.
Proof.
  intros Hhp grown h'. subst grown h'. unfold Hero.gain_experience, Hero.level_up.
  destruct h as [nm mx hp lv ex gd bag pd pb en ab]. simpl in *.
  repeat case_bool_decide; simpl; repeat split; lia.
Qed.

End HeroProperties.

(** * The console game *)

(** X10: the opponent HeroVsGoblin.py picks from the kill count: orcs from
    11 to 19 kills, ogres from 21 on, and the goblin otherwise, which
    includes exactly 20 kills. *)
Theorem HeroVsGoblin_next_monster_tiers (s : Z) :
  (HeroVsGoblin.next_monster s = HeroVsGoblin.Orc <-> 10 < s < 20)
  /\ (HeroVsGoblin.next_monster s = HeroVsGoblin.Ogre <-> 20 < s)
  /\ (HeroVsGoblin.next_monster s = HeroVsGoblin.Goblin <-> s <= 10 \/ s = 20).
Proof.
  unfold HeroVsGoblin.next_monster.
  repeat case_bool_decide; simpl; repeat split; intros; try done; try lia.
Qed.

(** * More on the battle manager *)

Section ManagerProperties.

Context `{E : Entities}.

Implicit Types (w : BattleManager) (h : Hero.t) (m : Monster.t) (a : Ability.t).

Lemma log_grows_refl w : log_grows w w.
Proof. exists []. by rewrite app_nil_r. Qed.

Lemma log_grows_trans w1 w2 w3 : log_grows w1 w2 -> log_grows w2 w3 -> log_grows w1 w3.
Proof. intros [l1 H1] [l2 H2]. exists (l1 ++ l2). by rewrite H2, H1, app_assoc. Qed.

Lemma log_grows_same w w' : battle_log w' = battle_log w -> log_grows w w'.
Proof. intros H. exists []. by rewrite app_nil_r. Qed.

Lemma log_grows_log msg w : log_grows w (log msg w).
Proof. exists [msg]. by destruct w. Qed.

Lemma log_grows_buttons_only w w' : buttons_only w w' -> log_grows w w'.
Proof. intros (_ & H & _). by apply log_grows_same. Qed.

Lemma log_grows_start_monster_turn w : log_grows w (start_monster_turn w).
Proof. by destruct (start_monster_turn_fields w) as (_ & _ & _ & H & _). Qed.

(** The line [log_effect] picks is the only thing it changes. *)
Lemma log_effect_fields hn an (eff : Effect.t) w :
  hero (log_effect hn an eff w) = hero w /\ monster (log_effect hn an eff w) = monster w
  /\ state (log_effect hn an eff w) = state w /\ turn (log_effect hn an eff w) = turn w
  /\ rng (log_effect hn an eff w) = rng w
  /\ button_manager (log_effect hn an eff w) = button_manager w
  /\ log_grows w (log_effect hn an eff w).
Proof.
  unfold log_effect.
  repeat case_match; try (split_and!; try done; apply log_grows_refl).
  all: split_and!; try (by destruct w); apply log_grows_log.
Qed.

(** An accepted [use_ability], step by step: the ability is used, its cost
    is taken off the hero's energy, every cooldown ticks, the menu closes
    and the turn passes to the monster, who replies if alive. *)
Lemma use_ability_resolved n w m a :
  turn w = HERO_TURN -> state w = USE_ABILITY -> is_Some (button_manager w) ->
  monster w = Some m -> Monster.is_alive m = true ->
  find_ability (hero w) n (Hero.abilities (hero w)) = Target a ->
  let r := Ability_use a (hero w) m (rng w) in
  exists w1,
    use_ability n w = start_monster_turn w1
    /\ hero w1 = Hero.update_abilities
                   (Hero.set_energy
                      (Hero.energy (UseResult.hero r) - Ability.energy_cost (UseResult.ability r))
                      (UseResult.hero r))
    /\ monster w1 = Some (UseResult.monster r)
    /\ rng w1 = UseResult.rng r
    /\ state w1 = HOME /\ turn w1 = MONSTER_TURN
    /\ is_Some (button_manager w1)
    /\ log_grows w w1.
Proof.
  intros Ht Hs Hb Hm Ha Hf r. unfold use_ability.
  rewrite (proj2 (guard_false_iff w USE_ABILITY)) by done.
  rewrite Hm, Ha, Hf. rewrite monster_reply. fold r.
  eexists. split; [reflexivity |].
  match goal with |- context [_toggle_ability_buttons false ?x] =>
    destruct (_toggle_ability_buttons_buttons_only false x)
      as (Hh4 & Hl4 & Hm4 & _ & _ & Hr4 & Hb4);
    set (w3 := x) in *
  end.
  match type of w3 with _ => idtac end.
  subst w3.
  match goal with |- context [log_effect ?hn ?an ?eff ?x] =>
    destruct (log_effect_fields hn an eff x) as (Hh3 & Hm3 & _ & _ & Hr3 & Hb3 & Hl3);
    set (w3 := log_effect hn an eff x) in *
  end.
  set (w4 := _toggle_ability_buttons false w3) in *.
  assert (Hw : hero (set_turn MONSTER_TURN (set_state HOME (set_hero (Hero.update_abilities (hero w4)) w4)))
               = Hero.update_abilities (hero w4)) by (by destruct w4).
  split_and!.
  - rewrite Hw, Hh4, Hh3. by destruct w.
  - transitivity (monster w4); [by destruct w4 |]. rewrite Hm4, Hm3. by destruct w.
  - transitivity (rng w4); [by destruct w4 |]. rewrite Hr4, Hr3. by destruct w.
  - by destruct w4.
  - by destruct w4.
  - assert (is_Some (button_manager w4)) as Hb5.
    { apply Hb4. rewrite Hb3. by destruct w. }
    by destruct w4.
  - apply (log_grows_trans w w3).
    + eapply log_grows_trans; [| exact Hl3]. apply log_grows_same. by destruct w.
    + apply (log_grows_trans w3 w4); [by apply log_grows_same |].
      apply log_grows_same. by destruct w4.
Qed.

Lemma log_grows_update_button_states b w : log_grows w (update_button_states b w).
Proof.
  apply (log_grows_trans w (set_button_manager (Some b) w));
    [apply log_grows_same; by destruct w |].
  unfold update_button_states. generalize (set_button_manager (Some b) w). intros w0.
  cbv zeta.
  repeat first
    [ apply log_grows_refl
    | case_bool_decide
    | match goal with
      | |- log_grows ?x (start_monster_turn ?y) =>
          apply (log_grows_trans x y); [| apply log_grows_start_monster_turn]
      | |- log_grows ?x (_toggle_ability_buttons ?s ?y) =>
          apply (log_grows_trans x y);
            [| apply log_grows_buttons_only, _toggle_ability_buttons_buttons_only]
      | |- log_grows ?x (_toggle_potion_buttons ?s ?y) =>
          apply (log_grows_trans x y);
            [| apply log_grows_buttons_only, _toggle_potion_buttons_buttons_only]
      | |- log_grows ?x (ui ?f ?y) =>
          apply (log_grows_trans x y); [| apply log_grows_buttons_only, ui_buttons_only]
      | |- log_grows ?x (if ?c then _ else _) => destruct c
      end ].
Qed.

Lemma log_grows_use_ability n w : log_grows w (use_ability n w).
Proof.
  destruct (decide (turn w = HERO_TURN)) as [Ht | Ht];
    [| rewrite use_ability_off by auto; apply log_grows_refl].
  destruct (decide (state w = USE_ABILITY)) as [Hu | Hu];
    [| rewrite use_ability_off by auto; apply log_grows_refl].
  destruct (button_manager w) as [b|] eqn:Hb;
    [| rewrite use_ability_off by auto; apply log_grows_refl].
  assert (Hb' : is_Some (button_manager w)) by (rewrite Hb; eauto).
  destruct (monster_alive w) eqn:Hm;
    [| rewrite use_ability_off by auto; apply log_grows_refl].
  apply monster_alive_true in Hm as (m & Hm & Ha).
  pose proof (use_ability_rejected n w m Ht Hu Hb' Hm Ha) as Hr.
  destruct (find_ability _ _ _) as [| | a |] eqn:Hf;
    try (rewrite Hr; apply log_grows_log).
  destruct (use_ability_resolved n w m a Ht Hu Hb' Hm Ha Hf)
    as (w1 & -> & _ & _ & _ & _ & _ & _ & Hl).
  eapply log_grows_trans; [exact Hl | apply log_grows_start_monster_turn].
Qed.

Lemma log_grows_handle_monster_defeat w : log_grows w (handle_monster_defeat w).
Proof.
  unfold handle_monster_defeat. destruct (monster w) as [m|]; [| apply log_grows_refl].
  destruct w. eexists (cons _ (cons _ nil)). simpl. by rewrite <- app_assoc.
Qed.

(** X11: the battle log is append-only: whatever method is called, in
    whatever state, and also when it raises, the lines that were in the log
    are still there, in order, at its start. *)
Theorem battle_log_append_only w :
  (forall m, log_grows w (start_battle m w))
  /\ (forall r w', update_battle_state w = Return r w' -> log_grows w w')
  /\ (forall e w', update_battle_state w = Raise e w' -> log_grows w w')
  /\ log_grows w (handle_monster_defeat w)
  /\ (forall b, log_grows w (update_button_states b w))
  /\ log_grows w (handle_monster_attack w)
  /\ log_grows w (start_monster_turn w)
  /\ (forall o, log_grows w (handle_ability o w))
  /\ log_grows w (handle_rest w)
  /\ (forall r w', handle_use_potion w = Return r w' -> log_grows w w')
  /\ (forall e w', handle_use_potion w = Raise e w' -> log_grows w w')
  /\ (forall n, log_grows w (use_potion n w))
  /\ log_grows w (handle_flee w).2
  /\ (forall n, log_grows w (use_ability n w)).
Proof.
  assert (Hpotion : forall w', (exists r, handle_use_potion w = Return r w')
                               \/ (exists e, handle_use_potion w = Raise e w') ->
                               log_grows w w').
  { intros w'. unfold handle_use_potion, _update_potion_button_states.
    destruct (_ || _) eqn:Hg.
    { intros [[r H] | [e H]]; simplify_eq. apply log_grows_refl. }
    clear Hg. case_bool_decide as Hs.
    - intros [[r H] | [e H]]; simplify_eq.
      eapply log_grows_trans;
        [| apply log_grows_buttons_only, _toggle_potion_buttons_buttons_only].
      apply log_grows_same. by destruct w.
    - intros H. apply update_potion_buttons_buttons_only in H.
      eapply log_grows_trans; [| apply log_grows_buttons_only, H].
      eapply log_grows_trans;
        [| apply log_grows_buttons_only, _toggle_potion_buttons_buttons_only].
      apply log_grows_same. by destruct w. }
  split_and!.
  - intros m. destruct w. by eexists (cons _ nil).
  - intros r w' H. unfold update_battle_state in H.
    repeat case_match; simplify_eq;
      first [apply log_grows_handle_monster_defeat | apply log_grows_refl].
  - intros e w' H. unfold update_battle_state in H.
    repeat case_match; simplify_eq; apply log_grows_refl.
  - apply log_grows_handle_monster_defeat.
  - intros b. apply log_grows_update_button_states.
  - destruct (decide (turn w = MONSTER_TURN)) as [Ht | Ht];
      [| rewrite handle_monster_attack_idle by auto; apply log_grows_refl].
    destruct (monster_alive w) eqn:Hm;
      [| rewrite handle_monster_attack_idle by auto; apply log_grows_refl].
    rewrite <- start_monster_turn_alive by done. apply log_grows_start_monster_turn.
  - apply log_grows_start_monster_turn.
  - intros o. unfold handle_ability.
    destruct (_ || _) eqn:Hg; [apply log_grows_refl |]. clear Hg.
    assert (Htoggle :
      log_grows w
        (if bool_decide (state w = USE_ABILITY)
         then _toggle_ability_buttons false (set_state HOME w)
         else _update_ability_button_states
                (_toggle_ability_buttons true (set_state USE_ABILITY w)))).
    { case_bool_decide.
      - eapply log_grows_trans;
          [| apply log_grows_buttons_only, _toggle_ability_buttons_buttons_only].
        apply log_grows_same. by destruct w.
      - eapply log_grows_trans;
          [| apply log_grows_buttons_only, _update_ability_button_states_buttons_only].
        eapply log_grows_trans;
          [| apply log_grows_buttons_only, _toggle_ability_buttons_buttons_only].
        apply log_grows_same. by destruct w. }
    destruct o as [[| c n] |]; try exact Htoggle. apply log_grows_use_ability.
  - destruct (decide (turn w = HERO_TURN)) as [Ht | Ht];
      [| rewrite handle_rest_off by done; apply log_grows_refl].
    rewrite handle_rest_on by done.
    eapply log_grows_trans; [| apply log_grows_start_monster_turn].
    destruct w. by eexists (cons _ nil).
  - intros r w' H. apply Hpotion. eauto.
  - intros e w' H. apply Hpotion. eauto.
  - intros n.
    destruct (decide (turn w = HERO_TURN)) as [Ht | Ht];
      [| rewrite use_potion_off by auto; apply log_grows_refl].
    destruct (decide (state w = USE_ITEM)) as [Hs | Hs];
      [| rewrite use_potion_off by auto; apply log_grows_refl].
    destruct (button_manager w) as [b|] eqn:Hb;
      [| rewrite use_potion_off by auto; apply log_grows_refl].
    rewrite use_potion_on by (rewrite ?Hb; eauto).
    eapply log_grows_trans; [| apply log_grows_start_monster_turn].
    match goal with |- log_grows _ (set_turn _ (set_state _ (_toggle_potion_buttons false ?x))) =>
      apply (log_grows_trans w x);
        [destruct w; by eexists (cons _ nil) |];
      apply (log_grows_trans x (_toggle_potion_buttons false x));
        [apply log_grows_buttons_only, _toggle_potion_buttons_buttons_only |];
      apply log_grows_same; by destruct (_toggle_potion_buttons false x)
    end.
  - unfold handle_flee. case_bool_decide; simpl; [apply log_grows_refl |].
    apply log_grows_same. by destruct w.
  - intros n. apply log_grows_use_ability.
Qed.

(** ** The verdict of a poll *)

(** X12: what a poll can report and what it costs: it changes the manager
    only when it reports the monster defeated; a dead hero is reported as
    defeated whether or not the monster is dead or even there, so he never
    collects a reward; the only exception it raises is the one for a living
    hero without a monster. *)
Theorem update_battle_state_verdict w :
  match update_battle_state w with
  | Return (Some true) w' =>
      w' = handle_monster_defeat w /\ state w <> MONSTER_DEFEATED
      /\ Hero.is_alive (hero w) = true
      /\ exists m, monster w = Some m /\ Monster.is_alive m = false
  | Return (Some false) w' =>
      w' = w /\ state w <> MONSTER_DEFEATED /\ Hero.is_alive (hero w) = false
  | Return None w' =>
      w' = w
      /\ (state w = MONSTER_DEFEATED
          \/ Hero.is_alive (hero w) = true /\ monster_alive w = true)
  | Raise e w' =>
      e = AttributeError /\ w' = w /\ state w <> MONSTER_DEFEATED
      /\ Hero.is_alive (hero w) = true /\ monster w = None
  end.
Proof.
  unfold update_battle_state, monster_alive.
  case_bool_decide as Hs; [| split; [done | left; by destruct (decide (state w = MONSTER_DEFEATED))]].
  destruct (Hero.is_alive (hero w)) eqn:Hh; simpl; [| done].
  destruct (monster w) as [m|] eqn:Hm; [| done].
  destruct (Monster.is_alive m) eqn:Ha; simpl; [by auto |].
  split_and!; try done. by exists m.
Qed.

(** ** Rejected and accepted uses of an ability *)

(** The search loop of [use_ability], read as "first ability of that
    name". *)
Lemma find_ability_first h n (l : list Ability.t) :
  find_ability h n l =
    match List.find (fun b => bool_decide (Ability.name b = n)) l with
    | None => Unknown
    | Some a =>
        if negb (Ability.can_use a) then OnCooldown
        else if bool_decide (Hero.energy h < Ability.energy_cost a) then NotEnoughEnergy
        else Target a
    end.
Proof.
  induction l as [| b l IH]; simpl; [done |].
  by case_bool_decide.
Qed.

(** X13: asking for an ability the hero does not have (an empty ability
    list included) costs nothing: one line goes to the log and nothing else
    changes. *)
Theorem use_ability_unknown_ability n w :
  turn w = HERO_TURN -> state w = USE_ABILITY -> is_Some (button_manager w) ->
  monster_alive w = true ->
  (forall a, a ∈ Hero.abilities (hero w) -> Ability.name a <> n) ->
  use_ability n w = log (Hero.name (hero w) +:+ " doesn't know " +:+ n +:+ "!") w.
Proof.
  intros Ht Hs Hb Hm Hn.
  apply monster_alive_true in Hm as (m & Hm & Ha).
  pose proof (use_ability_rejected n w m Ht Hs Hb Hm Ha) as Hr.
  rewrite find_ability_first in Hr.
  destruct (List.find _ _) as [a|] eqn:Hf; [| done].
  apply List.find_some in Hf as [Hin Heq].
  apply bool_decide_eq_true in Heq. apply list_elem_of_In in Hin.
  by destruct (Hn a Hin).
Qed.

(** X14: an ability that is off cooldown but costs more energy than the
    hero has is refused: the insufficient-energy line goes to the log and
    nothing else changes, the energy and the turn included. *)
Theorem use_ability_not_enough_energy n w a :
  turn w = HERO_TURN -> state w = USE_ABILITY -> is_Some (button_manager w) ->
  monster_alive w = true ->
  List.find (fun b => bool_decide (Ability.name b = n)) (Hero.abilities (hero w)) = Some a ->
  Ability.current_cooldown a = 0 ->
  Hero.energy (hero w) < Ability.energy_cost a ->
  use_ability n w = log (energy_message n) w.
Proof.
  intros Ht Hs Hb Hm Hf Hc He.
  apply monster_alive_true in Hm as (m & Hm & Ha).
  pose proof (use_ability_rejected n w m Ht Hs Hb Hm Ha) as Hr.
  rewrite find_ability_first, Hf in Hr.
  unfold Ability.can_use in Hr.
  by rewrite bool_decide_eq_true_2, bool_decide_eq_true_2 in Hr by done.
Qed.

Lemma find_ability_target h n (l : list Ability.t) a :
  List.find (fun b => bool_decide (Ability.name b = n)) l = Some a ->
  Ability.current_cooldown a = 0 ->
  Ability.energy_cost a <= Hero.energy h ->
  find_ability h n l = Target a.
Proof.
  intros Hf Hc He. rewrite find_ability_first, Hf. unfold Ability.can_use.
  by rewrite bool_decide_eq_true_2, bool_decide_eq_false_2 by (done || lia).
Qed.

(** X15: the blow that kills: when an accepted ability leaves the monster
    dead, the hero pays the cost, the cooldowns tick and the monster does
    not strike back; the manager is left on MONSTER_TURN, the next poll
    rewards the hero and enters MONSTER_DEFEATED, and from there every
    action handler is inert. *)
Theorem use_ability_killing_blow n w m a :
  turn w = HERO_TURN -> state w = USE_ABILITY -> is_Some (button_manager w) ->
  monster w = Some m -> Monster.is_alive m = true ->
  List.find (fun b => bool_decide (Ability.name b = n)) (Hero.abilities (hero w)) = Some a ->
  Ability.current_cooldown a = 0 ->
  Ability.energy_cost a <= Hero.energy (hero w) ->
  let r := Ability_use a (hero w) m (rng w) in
  Monster.is_alive (UseResult.monster r) = false ->
  let w' := use_ability n w in
  hero w' = Hero.update_abilities
              (Hero.set_energy
                 (Hero.energy (UseResult.hero r) - Ability.energy_cost (UseResult.ability r))
                 (UseResult.hero r))
  /\ monster w' = Some (UseResult.monster r)
  /\ state w' = HOME /\ turn w' = MONSTER_TURN
  /\ (Hero.is_alive (hero w') = true ->
      exists w2,
        update_battle_state w' = Return (Some true) w2
        /\ state w2 = MONSTER_DEFEATED
        /\ (forall o, handle_ability o w2 = w2)
        /\ (forall k, use_ability k w2 = w2)
        /\ handle_rest w2 = w2
        /\ handle_use_potion w2 = Return tt w2
        /\ (forall k, use_potion k w2 = w2)
        /\ handle_flee w2 = (false, w2)).
Proof.
  intros Ht Hs Hb Hm Ha Hf Hc He r Hdead w'. subst w'.
  pose proof (find_ability_target (hero w) n _ a Hf Hc He) as Hfa.
  destruct (use_ability_resolved n w m a Ht Hs Hb Hm Ha Hfa)
    as (w1 & -> & Hh1 & Hm1 & _ & Hs1 & Ht1 & _ & _).
  fold r in Hh1, Hm1.
  assert (Hidle : start_monster_turn w1 = w1).
  { apply start_monster_turn_idle. right. unfold monster_alive. by rewrite Hm1. }
  rewrite Hidle. split_and!; try done.
  intros Hh. exists (handle_monster_defeat w1).
  assert (Hw2 : state (handle_monster_defeat w1) = MONSTER_DEFEATED
                /\ turn (handle_monster_defeat w1) = MONSTER_TURN).
  { unfold handle_monster_defeat. rewrite Hm1. by destruct w1. }
  destruct Hw2 as [Hs2 Ht2].
  split_and!.
  - unfold update_battle_state.
    rewrite bool_decide_eq_true_2, Hh, Hm1, Hdead by (rewrite Hs1; done). done.
  - done.
  - intros o. apply handle_ability_off. left. congruence.
  - intros k. apply use_ability_off. left. congruence.
  - apply handle_rest_off. congruence.
  - apply handle_use_potion_off. left. congruence.
  - intros k. apply use_potion_off. left. congruence.
  - apply handle_flee_off. congruence.
Qed.


(** ** The submenus *)

Lemma handle_ability_toggle_step w :
  turn w = HERO_TURN -> is_Some (button_manager w) ->
  let s := if decide (state w = USE_ABILITY) then HOME else USE_ABILITY in
  buttons_only (set_state s w) (handle_ability None w)
  /\ handle_ability (Some "") w = handle_ability None w.
Proof.
  intros Ht Hb s. subst s. unfold handle_ability.
  rewrite (proj2 (guard2_false_iff w)) by done.
  split; [| done].
  destruct (decide (state w = USE_ABILITY)) as [Hs | Hs].
  - rewrite bool_decide_eq_true_2 by done. apply _toggle_ability_buttons_buttons_only.
  - rewrite bool_decide_eq_false_2 by done.
    eapply buttons_only_trans; [apply (_toggle_ability_buttons_buttons_only true) |].
    apply _update_ability_button_states_buttons_only.
Qed.

(** X17: the Ability button is a toggle that costs nothing: one press with
    no name (or an empty one) opens the ability submenu, or closes it when it
    is open; a second press undoes the first when the manager was in HOME or
    USE_ABILITY; hero, monster, log and turn are never touched. *)
Theorem handle_ability_toggle w :
  turn w = HERO_TURN -> is_Some (button_manager w) ->
  let w1 := handle_ability None w in
  let w2 := handle_ability None w1 in
  state w1 = (if decide (state w = USE_ABILITY) then HOME else USE_ABILITY)
  /\ state w2 = (if decide (state w = USE_ABILITY) then USE_ABILITY else HOME)
  /\ hero w2 = hero w /\ monster w2 = monster w /\ battle_log w2 = battle_log w
  /\ turn w2 = HERO_TURN
  /\ handle_ability (Some "") w = w1.
Proof.
  intros Ht Hb w1 w2. subst w1 w2.
  destruct (handle_ability_toggle_step w Ht Hb) as [(Hh1 & Hl1 & Hm1 & Hs1 & Ht1 & _ & Hb1) He1].
  set (w1 := handle_ability None w) in *.
  assert (Ht1' : turn w1 = HERO_TURN) by (rewrite Ht1; by destruct w).
  assert (Hb1' : is_Some (button_manager w1)) by (apply Hb1; by destruct w).
  destruct (handle_ability_toggle_step w1 Ht1' Hb1') as [(Hh2 & Hl2 & Hm2 & Hs2 & Ht2 & _) _].
  assert (Hs1' : state w1 = if decide (state w = USE_ABILITY) then HOME else USE_ABILITY)
    by (rewrite Hs1; by destruct w).
  split_and!.
  - done.
  - rewrite Hs2. transitivity (if decide (state w1 = USE_ABILITY) then HOME else USE_ABILITY);
      [by destruct w1 |].
    rewrite Hs1'. destruct (decide (state w = USE_ABILITY)); by repeat case_decide.
  - rewrite Hh2. transitivity (hero w1); [by destruct w1 |]. rewrite Hh1. by destruct w.
  - rewrite Hm2. transitivity (monster w1); [by destruct w1 |]. rewrite Hm1. by destruct w.
  - rewrite Hl2. transitivity (battle_log w1); [by destruct w1 |]. rewrite Hl1. by destruct w.
  - rewrite Ht2. transitivity (turn w1); [by destruct w1 |]. done.
  - done.
Qed.

Lemma showing_potions_ui f w : showing_potions (ui f w) = showing_potions w.
Proof. by destruct w. Qed.

Lemma update_potion_buttons_cons n names w :
  update_potion_buttons (n :: names) w =
    match Hero.potion_bag (hero w) !! n with
    | None => Raise KeyError w
    | Some c =>
        update_potion_buttons names
          (ui (ButtonManager.on_button n
                 (if bool_decide (0 < c) then Button.unlock else Button.lock)) w)
    end.
Proof. simpl. destruct (_ !! _); [| done]. by case_bool_decide. Qed.

(** The loop over the potion buttons: it stops with [KeyError] at the first
    name the bag does not hold, having set the buttons before it. *)
Lemma update_potion_buttons_outcome names w :
  exists w',
    buttons_only w w' /\ showing_potions w' = showing_potions w
    /\ ((exists n, n ∈ names /\ Hero.potion_bag (hero w) !! n = None)
        /\ update_potion_buttons names w = Raise KeyError w'
        \/ (forall n, n ∈ names -> is_Some (Hero.potion_bag (hero w) !! n))
           /\ update_potion_buttons names w = Return tt w').
Proof.
  revert w. induction names as [| n names IH]; intros w.
  - exists w. split_and!; [apply buttons_only_refl | done |]. right. split; [| done].
    intros n Hn. by apply elem_of_nil in Hn.
  - rewrite update_potion_buttons_cons.
    destruct (Hero.potion_bag (hero w) !! n) as [c|] eqn:Hc.
    + set (w1 := ui _ w).
      assert (Hbo : buttons_only w w1) by apply ui_buttons_only.
      assert (Hh : hero w1 = hero w) by apply Hbo.
      destruct (IH w1) as (w' & Hbo' & Hsp & Hcase). exists w'.
      split_and!.
      * by eapply buttons_only_trans.
      * rewrite Hsp. apply showing_potions_ui.
      * rewrite Hh in Hcase. destruct Hcase as [[(k & Hk & Hnone) Hr] | [Hall Hr]].
        -- left. split; [| done]. exists k. split; [by right | done].
        -- right. split; [| done]. intros k Hk.
           apply elem_of_cons in Hk as [-> | Hk]; [by rewrite Hc | by apply Hall].
    + exists w. split_and!; [apply buttons_only_refl | done |].
      left. split; [| done]. exists n. split; [by left | done].
Qed.

(** X18: opening the potion submenu looks every one of the three potions up
    in the bag: when the bag lacks one of the three names the call raises
    [KeyError], and by then the manager is already in USE_ITEM with the
    potion buttons shown; with all three names in the bag it returns in
    USE_ITEM.  Either way hero, monster, log and turn are untouched. *)
Theorem handle_use_potion_open w :
  turn w = HERO_TURN -> is_Some (button_manager w) -> state w <> USE_ITEM ->
  exists w',
    state w' = USE_ITEM /\ showing_potions w' = true
    /\ hero w' = hero w /\ monster w' = monster w /\ battle_log w' = battle_log w
    /\ turn w' = HERO_TURN
    /\ ((exists n, n ∈ ["Health Potion"; "Damage Potion"; "Block Potion"]
                   /\ Hero.potion_bag (hero w) !! n = None)
        /\ handle_use_potion w = Raise KeyError w'
        \/ (forall n, n ∈ ["Health Potion"; "Damage Potion"; "Block Potion"] ->
                      is_Some (Hero.potion_bag (hero w) !! n))
           /\ handle_use_potion w = Return tt w').
Proof.
  intros Ht Hb Hs. unfold handle_use_potion, _update_potion_button_states.
  rewrite (proj2 (guard2_false_iff w)) by done.
  rewrite bool_decide_eq_false_2 by done.
  set (w1 := _toggle_potion_buttons true (set_state USE_ITEM w)).
  assert (Hbo : buttons_only (set_state USE_ITEM w) w1)
    by apply _toggle_potion_buttons_buttons_only.
  assert (Hsp1 : showing_potions w1 = true) by (by destruct w).
  destruct (update_potion_buttons_outcome
              ["Health Potion"; "Damage Potion"; "Block Potion"] w1)
    as (w' & Hbo' & Hsp & Hcase).
  destruct Hbo as (Hh1 & Hl1 & Hm1 & Hs1 & Ht1 & _).
  destruct Hbo' as (Hh2 & Hl2 & Hm2 & Hs2 & Ht2 & _).
  exists w'. split_and!.
  - rewrite Hs2, Hs1. by destruct w.
  - by rewrite Hsp.
  - rewrite Hh2, Hh1. by destruct w.
  - rewrite Hm2, Hm1. by destruct w.
  - rewrite Hl2, Hl1. by destruct w.
  - rewrite Ht2, Ht1. by destruct w.
  - replace (hero w) with (hero w1) by (rewrite Hh1; by destruct w). exact Hcase.
Qed.

(** ** What the buttons show *)

(** Running the button code of the manager on a state whose fields are
    known. *)
Ltac run_buttons :=
  lazy beta iota zeta delta
    [_toggle_potion_buttons _toggle_ability_buttons
     _update_ability_button_states ui set_button_manager set_showing_potions set_state
     state turn hero button_manager battle_log monster showing_potions rng
     fmap option_fmap option_map monster_alive start_monster_turn].

(** One named button after a chain of button operations. *)
Ltac button_lookup :=
  repeat first
    [ rewrite lookup_on_button | rewrite buttons_clear | rewrite buttons_set_abilities
    | rewrite for_buttons_cons | rewrite for_buttons_nil | rewrite add_hero_ability_buttons
    | progress cbn [ButtonManager.buttons] ];
  repeat (case_decide; simplify_eq; try done).

Lemma on_button_if (p : bool) k f g (u : ButtonManager.t) :
  (if p then ButtonManager.on_button k f else ButtonManager.on_button k g) u
  = ButtonManager.on_button k (if p then f else g) u.
Proof. by destruct p. Qed.

Lemma elem_of_three (n a b c : string) : n ∈ [a; b; c] -> n = a \/ n = b \/ n = c.
Proof. rewrite !elem_of_cons, elem_of_nil. tauto. Qed.

(** X19: the potion buttons after the submenu opens: each of the three is
    shown, and locked exactly when the bag holds none of that potion. *)
Theorem handle_use_potion_buttons w b :
  turn w = HERO_TURN -> button_manager w = Some b -> state w <> USE_ITEM ->
  (forall n, n ∈ ["Health Potion"; "Damage Potion"; "Block Potion"] ->
             is_Some (Hero.potion_bag (hero w) !! n)) ->
  exists w' b',
    handle_use_potion w = Return tt w' /\ button_manager w' = Some b'
    /\ forall n c x,
         n ∈ ["Health Potion"; "Damage Potion"; "Block Potion"] ->
         Hero.potion_bag (hero w) !! n = Some c ->
         ButtonManager.buttons b !! n = Some x ->
         ButtonManager.buttons b' !! n
         = Some (Button.mk (Button.text x) (bool_decide (c <= 0)) true).
Proof.
  intros Ht Hb Hs Hbag.
  destruct (Hbag "Health Potion") as [c1 H1]; [set_solver |].
  destruct (Hbag "Damage Potion") as [c2 H2]; [set_solver |].
  destruct (Hbag "Block Potion") as [c3 H3]; [set_solver |].
  unfold handle_use_potion, _update_potion_button_states.
  rewrite (proj2 (guard2_false_iff w)) by (rewrite ?Hb; eauto).
  rewrite bool_decide_eq_false_2 by done.
  destruct w as [h lg mo st tu sp bm g]. simpl in Ht, Hb, Hs, H1, H2, H3. subst bm.
  rewrite update_potion_buttons_cons. run_buttons. rewrite H1. run_buttons.
  rewrite update_potion_buttons_cons. run_buttons. rewrite H2. run_buttons.
  rewrite update_potion_buttons_cons. run_buttons. rewrite H3. run_buttons.
  cbn [update_potion_buttons].
  eexists; eexists. split; [reflexivity |]. split; [reflexivity |].
  intros n c x Hn Hc Hx.
  apply elem_of_three in Hn as [-> | [-> | ->]]; simplify_eq; button_lookup;
    rewrite Hx; simpl; destruct x; simpl; f_equal; f_equal;
    repeat case_bool_decide; simpl; try done; lia.
Qed.

(** X20: the buttons on the hero's turn in HOME: Ability, Rest and Flee are
    unlocked, Potion is unlocked exactly when the hero has a potion left,
    Continue and Retreat are locked and hidden, the three potion buttons are
    hidden and no ability button is left. *)
Theorem update_button_states_home b w :
  state w = HOME -> turn w = HERO_TURN ->
  exists b',
    button_manager (update_button_states b w) = Some b'
    /\ showing_potions (update_button_states b w) = false
    /\ ButtonManager.hero_ability_buttons b' = []
    /\ (forall x, ButtonManager.buttons b !! "Potion" = Some x ->
          ButtonManager.buttons b' !! "Potion"
          = Some (Button.mk (Button.text x) (negb (Hero.has_potions (hero w)))
                    (Button.visible x)))
    /\ (forall n x, n ∈ ["Ability"; "Rest"; "Flee"] ->
          ButtonManager.buttons b !! n = Some x ->
          ButtonManager.buttons b' !! n
          = Some (Button.mk (Button.text x) false (Button.visible x)))
    /\ (forall n x, n ∈ ["Continue"; "Retreat"] ->
          ButtonManager.buttons b !! n = Some x ->
          ButtonManager.buttons b' !! n = Some (Button.mk (Button.text x) true false))
    /\ (forall n x, n ∈ ["Health Potion"; "Damage Potion"; "Block Potion"] ->
          ButtonManager.buttons b !! n = Some x ->
          ButtonManager.buttons b' !! n
          = Some (Button.mk (Button.text x) (Button.locked x) false)).
Proof.
  intros Hs Ht. destruct w as [h lg mo st tu sp bm g]. simpl in *. subst.
  unfold update_button_states. cbv zeta. rewrite ?if_ui. run_buttons.
  repeat (case_bool_decide; simplify_eq).
  eexists. split; [reflexivity |]. split; [reflexivity |].
  rewrite on_button_if. split_and!.
  - reflexivity.
  - intros x Hx. button_lookup. rewrite Hx. simpl. by destruct (Hero.has_potions h), x.
  - intros n x Hn Hx. apply elem_of_three in Hn as [-> | [-> | ->]];
      button_lookup; rewrite Hx; by destruct x.
  - intros n x Hn Hx. rewrite !elem_of_cons, elem_of_nil in Hn.
    destruct Hn as [-> | [-> | []]]; button_lookup; rewrite Hx; by destruct x.
  - intros n x Hn Hx. apply elem_of_three in Hn as [-> | [-> | ->]];
      button_lookup; rewrite Hx; by destruct x.
Qed.

(** X21: the buttons after a victory: in MONSTER_DEFEATED, whoever's turn
    it is, the four combat buttons are locked and Continue and Retreat are
    unlocked; their visibility is left as it was, and the monster is not
    given a turn. *)
Theorem update_button_states_monster_defeated b w :
  state w = MONSTER_DEFEATED ->
  exists b',
    update_button_states b w
    = set_showing_potions false (set_button_manager (Some b') w)
    /\ ButtonManager.hero_ability_buttons b' = []
    /\ (forall n x, n ∈ ["Ability"; "Rest"; "Potion"; "Flee"] ->
          ButtonManager.buttons b !! n = Some x ->
          ButtonManager.buttons b' !! n
          = Some (Button.mk (Button.text x) true (Button.visible x)))
    /\ (forall n x, n ∈ ["Continue"; "Retreat"] ->
          ButtonManager.buttons b !! n = Some x ->
          ButtonManager.buttons b' !! n
          = Some (Button.mk (Button.text x) false (Button.visible x))).
Proof.
  intros Hs. destruct w as [h lg mo st tu sp bm g]. simpl in *. subst.
  unfold update_button_states. cbv zeta. rewrite ?if_ui. run_buttons.
  repeat (case_bool_decide; simplify_eq).
  eexists. split; [reflexivity |]. split_and!.
  - reflexivity.
  - intros n x Hn Hx. rewrite !elem_of_cons, elem_of_nil in Hn.
    destruct Hn as [-> | [-> | [-> | [-> | []]]]]; button_lookup; rewrite Hx; by destruct x.
  - intros n x Hn Hx. rewrite !elem_of_cons, elem_of_nil in Hn.
    destruct Hn as [-> | [-> | []]]; button_lookup; rewrite Hx; by destruct x.
Qed.

(** ** Ability buttons *)

(** With every ability under a name of its own, the first ability with the
    text of a button is the ability the button was made for. *)
Lemma update_ability_button_own h (l : list Ability.t) a lk v :
  NoDup (Ability.name <$> l) -> a ∈ l ->
  update_ability_button h l (Button.mk (Ability.name a) lk v)
  = Button.mk (Ability.name a) (ability_locked h a) v.
Proof.
  induction l as [| b l IH]; intros Hnd Hin; [by apply elem_of_nil in Hin |].
  rewrite fmap_cons in Hnd. apply NoDup_cons in Hnd as [Hb Hnd].
  simpl. case_bool_decide as Hname.
  - assert (a = b) as ->.
    { apply elem_of_cons in Hin as [-> | Hin]; [done |].
      exfalso. apply Hb. rewrite <- Hname. by apply list_elem_of_fmap_2. }
    unfold ability_locked. by destruct (_ || _).
  - apply elem_of_cons in Hin as [-> | Hin]; [done | by apply IH].
Qed.

(** X22: the ability buttons on the hero's turn in USE_ABILITY: one button
    per ability, in the order of the hero's list and under the ability's
    name, shown, and locked exactly when that ability is on cooldown or
    costs more energy than the hero has (abilities under distinct names). *)
Theorem update_button_states_ability_buttons b w :
  state w = USE_ABILITY -> turn w = HERO_TURN ->
  NoDup (Ability.name <$> Hero.abilities (hero w)) ->
  exists b',
    button_manager (update_button_states b w) = Some b'
    /\ ButtonManager.hero_ability_buttons b'
       = (fun a => Button.mk (Ability.name a) (ability_locked (hero w) a) true)
           <$> Hero.abilities (hero w).
Proof.
  intros Hs Ht Hnd. destruct w as [h lg mo st tu sp bm g]. simpl in *. subst.
  unfold update_button_states. cbv zeta. rewrite ?if_ui. run_buttons.
  repeat (case_bool_decide; simplify_eq).
  eexists. split; [reflexivity |].
  rewrite abilities_set_abilities, add_hero_ability_buttons.
  cbn [ButtonManager.hero_ability_buttons]. rewrite abilities_clear. simpl.
  change (list_fmap Button.t Button.t ?f ?l) with (f <$> l).
  rewrite <- list_fmap_compose. apply list_fmap_ext. intros i a Ha. simpl.
  apply update_ability_button_own; [done |]. by eapply list_elem_of_lookup_2.
Qed.

(** X23: buttons and handler agree: with abilities under distinct names
    and no negative cooldown, the button of an ability is unlocked exactly
    when [use_ability] would accept that ability. *)
Theorem unlocked_ability_is_accepted h a :
  NoDup (Ability.name <$> Hero.abilities h) -> a ∈ Hero.abilities h ->
  0 <= Ability.current_cooldown a ->
  ability_locked h a = false
  <-> find_ability h (Ability.name a) (Hero.abilities h) = Target a.
Proof.
  intros Hnd Hin Hc.
  assert (Hf : List.find (fun b => bool_decide (Ability.name b = Ability.name a))
                 (Hero.abilities h) = Some a).
  { revert Hnd Hin. generalize (Hero.abilities h). intros l.
    induction l as [| b l IH]; intros Hnd Hin; [by apply elem_of_nil in Hin |].
    rewrite fmap_cons in Hnd. apply NoDup_cons in Hnd as [Hb Hnd].
    simpl. case_bool_decide as Hname.
    - apply elem_of_cons in Hin as [-> | Hin]; [done |].
      exfalso. apply Hb. rewrite Hname. by apply list_elem_of_fmap_2.
    - apply elem_of_cons in Hin as [-> | Hin]; [done | by apply IH]. }
  rewrite find_ability_first, Hf. unfold ability_locked, Ability.can_use.
  repeat case_bool_decide; simpl; split; intros; try done; lia.
Qed.

(** ** Potions and the monster's reply *)


(** ** A new encounter *)

(** X25: [start_battle] begins a fresh encounter from any state, also
    from MONSTER_DEFEATED, RUN_AWAY or an unresolved monster's turn: the
    manager is in HOME on the hero's turn, the hero is as he was, and with
    hero and monster alive the next poll reports that the battle goes on. *)
Theorem start_battle_fresh_encounter m w :
  Hero.is_alive (hero w) = true -> Monster.is_alive m = true ->
  let w' := start_battle m w in
  state w' = HOME /\ turn w' = HERO_TURN /\ monster w' = Some m /\ hero w' = hero w
  /\ battle_log w' = battle_log w ++ ["A " +:+ Monster.name m +:+ " appears!"]
  /\ monster_turn_pending w' = false
  /\ update_battle_state w' = Return None w'.
Proof.
  intros Hh Hm w'. subst w'.
  destruct w as [h lg mo st tu sp bm g]. simpl in *.
  split_and!; try done.
  unfold update_battle_state, start_battle. simpl. by rewrite Hh, Hm.
Qed.

(** X26: a submenu is never open without a button manager: in every state
    the manager can reach, USE_ITEM or USE_ABILITY implies that
    [update_button_states] has stored one. *)
Theorem submenu_open_has_button_manager w :
  reachable w -> state w = USE_ITEM \/ state w = USE_ABILITY ->
  is_Some (button_manager w).
Proof. intros Hr. by apply reachable_submenu_registered. Qed.

(** ** No turn left pending *)


Lemma monster_turn_pending_buttons_only w w' :
  buttons_only w w' -> monster_turn_pending w' = monster_turn_pending w.
Proof.
  intros (_ & _ & Hm & Hs & Ht & _). unfold monster_turn_pending, monster_alive.
  by rewrite Hm, Hs, Ht.
Qed.



End ManagerProperties.

(** * The further properties on the sample game *)

Lemma Hero_use_potion_takes_one_witness :
  let h' := Hero.use_potion "Health Potion" knight in
  Hero.potion_bag h' !! "Health Potion" = Some (2 - 1)
  /\ (forall n', n' <> "Health Potion" ->
        Hero.potion_bag h' !! n' = Hero.potion_bag knight !! n')
  /\ Hero.level h' = Hero.level knight /\ Hero.experience h' = Hero.experience knight
  /\ Hero.gold h' = Hero.gold knight /\ Hero.energy h' = Hero.energy knight
  /\ Hero.abilities h' = Hero.abilities knight.
Proof.
  apply (Hero_use_potion_takes_one "Health Potion" knight 2); [reflexivity | lia].
Defined.

Lemma knight_bag_nonnegative n c : Hero.potion_bag knight !! n = Some c -> 0 <= c.
Proof.
  revert n c.
  apply (bool_decide_unpack (map_Forall (fun _ c => 0 <= c) (Hero.potion_bag knight))).
  vm_compute. exact I.
Defined.

Lemma Hero_use_potion_never_overdraws_witness :
  (forall n' c, Hero.potion_bag (Hero.use_potion "Block Potion" knight) !! n' = Some c -> 0 <= c)
  /\ (default 0 (Hero.potion_bag knight !! "Block Potion") = 0 ->
      Hero.use_potion "Block Potion" knight = knight).
Proof.
  apply (Hero_use_potion_never_overdraws "Block Potion" knight). exact knight_bag_nonnegative.
Defined.

Lemma Hero_use_potion_health_witness :
  let h' := Hero.use_potion "Health Potion" knight in
  Hero.max_hp h' = Hero.max_hp knight
  /\ Hero.current_hp knight <= Hero.current_hp h' <= Hero.max_hp knight
  /\ ("Health Potion" = "Health Potion" ->
      0 < default 0 (Hero.potion_bag knight !! "Health Potion") ->
      Hero.current_hp h' = Z.min (Hero.max_hp knight) (Hero.current_hp knight + 5)).
Proof.
  apply (Hero_use_potion_health "Health Potion" knight). vm_compute. discriminate.
Defined.

Lemma Hero_spend_gold_never_overdraws_witness :
  let r := Hero.spend_gold 30 knight in
  (r.1 = true <-> 30 <= Hero.gold knight)
  /\ (r.1 = true -> r.2 = Hero.set_gold (Hero.gold knight - 30) knight)
  /\ (r.1 = false -> r.2 = knight)
  /\ 0 <= Hero.gold r.2.
Proof.
  apply (Hero_spend_gold_never_overdraws 30 knight). vm_compute. discriminate.
Defined.

Lemma Hero_add_gold_spend_gold_witness :
  Hero.spend_gold 7 (Hero.add_gold 7 knight) = (true, knight).
Proof.
  apply (Hero_add_gold_spend_gold 7 knight). vm_compute. discriminate.
Defined.

Lemma Hero_gain_experience_one_level_witness :
  let h' := Hero.gain_experience 25 knight in
  (Hero.level h' = Hero.level knight /\ Hero.experience h' = Hero.experience knight + 25
   \/ Hero.level h' = Hero.level knight + 1 /\ Hero.experience h' = 0
      /\ 10 * Hero.level knight <= Hero.experience knight + 25)
  /\ Hero.experience h' < 10 * Hero.level h'
  /\ Hero.gold h' = Hero.gold knight
  /\ Hero.potion_bag h' = Hero.potion_bag knight.
Proof.
  apply (Hero_gain_experience_one_level 25 knight). vm_compute. discriminate.
Defined.

Lemma Hero_level_up_health_witness :
  let grown := Hero.level_up knight in
  let h' := Hero.gain_experience 25 knight in
  Hero.current_hp grown = Hero.current_hp knight + 5
  /\ Hero.max_hp grown = Z.max (Hero.max_hp knight) (Hero.current_hp knight + 5)
  /\ Hero.current_hp knight <= Hero.current_hp h' <= Hero.max_hp h'
  /\ Hero.max_hp knight <= Hero.max_hp h'.
Proof.
  apply (Hero_level_up_health 25 knight). vm_compute. discriminate.
Defined.

Lemma ability_menu_no_heal a : a ∈ Hero.abilities (hero ability_menu) -> Ability.name a <> "Heal".
Proof.
  revert a. apply Forall_forall.
  apply (bool_decide_unpack
           (Forall (fun a => Ability.name a <> "Heal") (Hero.abilities (hero ability_menu)))).
  vm_compute. exact I.
Defined.

Lemma use_ability_unknown_ability_witness :
  use_ability "Heal" ability_menu
  = log (Hero.name (hero ability_menu) +:+ " doesn't know " +:+ "Heal" +:+ "!") ability_menu.
Proof.
  apply (use_ability_unknown_ability (E := plain) "Heal" ability_menu);
    [reflexivity | reflexivity | vm_compute; eauto | reflexivity | exact ability_menu_no_heal].
Defined.

Lemma use_ability_not_enough_energy_witness :
  use_ability "Slash" tired_menu = log (energy_message "Slash") tired_menu.
Proof.
  apply (use_ability_not_enough_energy (E := plain) "Slash" tired_menu slash);
    [reflexivity | reflexivity | vm_compute; eauto | reflexivity | reflexivity | reflexivity
    | vm_compute; reflexivity].
Defined.

Lemma use_ability_killing_blow_witness :
  let r := plain_use slash (hero last_blow) (Monster.mk "Goblin" 3 5 4 7) tt in
  let w' := use_ability "Slash" last_blow in
  hero w' = Hero.update_abilities
              (Hero.set_energy
                 (Hero.energy (UseResult.hero r) - Ability.energy_cost (UseResult.ability r))
                 (UseResult.hero r))
  /\ monster w' = Some (UseResult.monster r)
  /\ state w' = HOME /\ turn w' = MONSTER_TURN
  /\ (Hero.is_alive (hero w') = true ->
      exists w2,
        update_battle_state w' = Return (Some true) w2
        /\ state w2 = MONSTER_DEFEATED
        /\ (forall o, handle_ability o w2 = w2)
        /\ (forall k, use_ability k w2 = w2)
        /\ handle_rest w2 = w2
        /\ handle_use_potion w2 = Return tt w2
        /\ (forall k, use_potion k w2 = w2)
        /\ handle_flee w2 = (false, w2)).
Proof.
  apply (use_ability_killing_blow (E := plain) "Slash" last_blow (Monster.mk "Goblin" 3 5 4 7) slash);
    [reflexivity | reflexivity | vm_compute; eauto | reflexivity | reflexivity | reflexivity
    | reflexivity | vm_compute; discriminate | reflexivity].
Defined.


Lemma handle_ability_toggle_witness :
  let w1 := handle_ability None ready in
  let w2 := handle_ability None w1 in
  state w1 = (if decide (state ready = USE_ABILITY) then HOME else USE_ABILITY)
  /\ state w2 = (if decide (state ready = USE_ABILITY) then USE_ABILITY else HOME)
  /\ hero w2 = hero ready /\ monster w2 = monster ready /\ battle_log w2 = battle_log ready
  /\ turn w2 = HERO_TURN
  /\ handle_ability (Some "") ready = w1.
Proof.
  apply (handle_ability_toggle (E := plain) ready); [reflexivity | vm_compute; eauto].
Defined.

Lemma handle_use_potion_open_witness :
  exists w',
    state w' = USE_ITEM /\ showing_potions w' = true
    /\ hero w' = hero ready /\ monster w' = monster ready /\ battle_log w' = battle_log ready
    /\ turn w' = HERO_TURN
    /\ ((exists n, n ∈ ["Health Potion"; "Damage Potion"; "Block Potion"]
                   /\ Hero.potion_bag (hero ready) !! n = None)
        /\ handle_use_potion ready = Raise KeyError w'
        \/ (forall n, n ∈ ["Health Potion"; "Damage Potion"; "Block Potion"] ->
                      is_Some (Hero.potion_bag (hero ready) !! n))
           /\ handle_use_potion ready = Return tt w').
Proof.
  apply (handle_use_potion_open (E := plain) ready);
    [reflexivity | vm_compute; eauto | vm_compute; discriminate].
Defined.

Lemma ready_has_the_three_potions n :
  n ∈ ["Health Potion"; "Damage Potion"; "Block Potion"] ->
  is_Some (Hero.potion_bag (hero ready) !! n).
Proof.
  revert n. apply Forall_forall.
  apply (bool_decide_unpack
           (Forall (fun n => is_Some (Hero.potion_bag (hero ready) !! n))
              ["Health Potion"; "Damage Potion"; "Block Potion"])).
  vm_compute. exact I.
Defined.

Lemma handle_use_potion_buttons_witness :
  exists w' b',
    handle_use_potion ready = Return tt w' /\ button_manager w' = Some b'
    /\ forall n c x,
         n ∈ ["Health Potion"; "Damage Potion"; "Block Potion"] ->
         Hero.potion_bag (hero ready) !! n = Some c ->
         ButtonManager.buttons (default battle_buttons (button_manager ready)) !! n = Some x ->
         ButtonManager.buttons b' !! n
         = Some (Button.mk (Button.text x) (bool_decide (c <= 0)) true).
Proof.
  apply (handle_use_potion_buttons (E := plain) ready);
    [reflexivity | reflexivity | vm_compute; discriminate | exact ready_has_the_three_potions].
Defined.

Lemma update_button_states_home_witness :
  exists b',
    button_manager (update_button_states battle_buttons ready) = Some b'
    /\ showing_potions (update_button_states battle_buttons ready) = false
    /\ ButtonManager.hero_ability_buttons b' = []
    /\ (forall x, ButtonManager.buttons battle_buttons !! "Potion" = Some x ->
          ButtonManager.buttons b' !! "Potion"
          = Some (Button.mk (Button.text x) (negb (Hero.has_potions (hero ready)))
                    (Button.visible x)))
    /\ (forall n x, n ∈ ["Ability"; "Rest"; "Flee"] ->
          ButtonManager.buttons battle_buttons !! n = Some x ->
          ButtonManager.buttons b' !! n
          = Some (Button.mk (Button.text x) false (Button.visible x)))
    /\ (forall n x, n ∈ ["Continue"; "Retreat"] ->
          ButtonManager.buttons battle_buttons !! n = Some x ->
          ButtonManager.buttons b' !! n = Some (Button.mk (Button.text x) true false))
    /\ (forall n x, n ∈ ["Health Potion"; "Damage Potion"; "Block Potion"] ->
          ButtonManager.buttons battle_buttons !! n = Some x ->
          ButtonManager.buttons b' !! n
          = Some (Button.mk (Button.text x) (Button.locked x) false)).
Proof.
  apply (update_button_states_home (E := plain) battle_buttons ready); reflexivity.
Defined.

Lemma update_button_states_monster_defeated_witness :
  exists b',
    update_button_states battle_buttons won
    = set_showing_potions false (set_button_manager (Some b') won)
    /\ ButtonManager.hero_ability_buttons b' = []
    /\ (forall n x, n ∈ ["Ability"; "Rest"; "Potion"; "Flee"] ->
          ButtonManager.buttons battle_buttons !! n = Some x ->
          ButtonManager.buttons b' !! n
          = Some (Button.mk (Button.text x) true (Button.visible x)))
    /\ (forall n x, n ∈ ["Continue"; "Retreat"] ->
          ButtonManager.buttons battle_buttons !! n = Some x ->
          ButtonManager.buttons b' !! n
          = Some (Button.mk (Button.text x) false (Button.visible x))).
Proof.
  apply (update_button_states_monster_defeated (E := plain) battle_buttons won). reflexivity.
Defined.

Lemma knight_abilities_distinct : NoDup (Ability.name <$> Hero.abilities knight).
Proof.
  apply (bool_decide_unpack (NoDup (Ability.name <$> Hero.abilities knight))).
  vm_compute. exact I.
Defined.

Lemma update_button_states_ability_buttons_witness :
  exists b',
    button_manager (update_button_states battle_buttons ability_menu) = Some b'
    /\ ButtonManager.hero_ability_buttons b'
       = (fun a => Button.mk (Ability.name a) (ability_locked (hero ability_menu) a) true)
           <$> Hero.abilities (hero ability_menu).
Proof.
  apply (update_button_states_ability_buttons (E := plain) battle_buttons ability_menu);
    [reflexivity | reflexivity | exact knight_abilities_distinct].
Defined.

Lemma unlocked_ability_is_accepted_witness :
  ability_locked knight slash = false
  <-> find_ability knight (Ability.name slash) (Hero.abilities knight) = Target slash.
Proof.
  apply (unlocked_ability_is_accepted knight slash);
    [exact knight_abilities_distinct | | vm_compute; discriminate].
  simpl. apply elem_of_cons. right. apply elem_of_cons. by left.
Defined.


Lemma start_battle_fresh_encounter_witness :
  let w' := start_battle goblin won in
  state w' = HOME /\ turn w' = HERO_TURN /\ monster w' = Some goblin /\ hero w' = hero won
  /\ battle_log w' = battle_log won ++ ["A " +:+ Monster.name goblin +:+ " appears!"]
  /\ monster_turn_pending w' = false
  /\ update_battle_state w' = Return None w'.
Proof.
  apply (start_battle_fresh_encounter (E := plain) goblin won); reflexivity.
Defined.

Lemma submenu_open_has_button_manager_witness : is_Some (button_manager ability_menu).
Proof.
  apply (submenu_open_has_button_manager (E := plain) ability_menu);
    [exact ability_menu_reachable | right; reflexivity].
Defined.

